(** * swift-check: a line-oriented Swift style checker

    Shallow embedding of [swift-check.py] and machine-checked statements of
    its behaviour.  The file is organised as follows:

    - [Py]      the fragment of the Python runtime the script relies on:
                text as lists of code points, [str] methods, integers
                rendered by f-strings, exceptions;
    - [Re]      the fragment of the [re] module used by the six patterns of
                the script, with an executable matcher and its declarative
                semantics;
    - [Checker] the class [SwiftChecker] and [main], written in a small
                state-and-exception monad, and the vocabulary of the
                statements;
    - [Samples] the concrete files and runs the statements are tried on;
    - [PyFacts], [ReFacts], [CheckerFacts] lemmas on the three layers;
    - [Verdict], [FunctionLength], [ForceUnwrap], [Patterns],
      [Interruption] the statements about the checker. *)

From Stdlib Require Import String Ascii DecimalString.
From Stdlib Require Import ZArith NArith List Bool Lia.
Import ListNotations.

Set Implicit Arguments.
Local Open Scope Z_scope.

(* ===================================================================== *)
(** * The Python runtime fragment                                         *)
(* ===================================================================== *)

Module Py.

(** A Python [str] is a sequence of Unicode code points. *)
Definition char := N.
Definition str := list char.

(** Literals of the script are ASCII unless stated otherwise. *)
Definition lit (s : string) : str :=
  map N_of_ascii (list_ascii_of_string s).

Definition chr (a : ascii) : char := N_of_ascii a.

Definition char_eqb : char -> char -> bool := N.eqb.

Fixpoint str_eqb (a b : str) : bool :=
  match a, b with
  | [], [] => true
  | x :: a', y :: b' => char_eqb x y && str_eqb a' b'
  | _, _ => false
  end.

(** [c.isspace()], which is also the class [\s] of [re] on [str]
    patterns: the code points CPython lists as whitespace. *)
Definition isspace (c : char) : bool :=
  ((9 <=? c) && (c <=? 13) || (28 <=? c) && (c <=? 32)
   || (c =? 133) || (c =? 160) || (c =? 5760)
   || (8192 <=? c) && (c <=? 8202)
   || (c =? 8232) || (c =? 8233) || (c =? 8239) || (c =? 8287)
   || (c =? 12288))%N.

(** [len(s)] *)
Definition len (s : str) : Z := Z.of_nat (length s).

(** [s.lstrip()], [s.rstrip()], [s.strip()] *)
Fixpoint lstrip (s : str) : str :=
  match s with
  | c :: s' => if isspace c then lstrip s' else s
  | [] => []
  end.

Definition rstrip (s : str) : str := rev (lstrip (rev s)).

Definition strip (s : str) : str := rstrip (lstrip s).

(** [s.startswith(p)] *)
Fixpoint startswith (p s : str) : bool :=
  match p, s with
  | [], _ => true
  | x :: p', y :: s' => char_eqb x y && startswith p' s'
  | _ :: _, [] => false
  end.

(** [sub in s] *)
Fixpoint contains (sub s : str) : bool :=
  startswith sub s ||
  match s with
  | [] => false
  | _ :: s' => contains sub s'
  end.

(** [s.count(sub)] for a non-empty [sub]: the number of non-overlapping
    occurrences, scanning from the left.  [skip] is the number of
    characters of the occurrence just found that remain to be passed. *)
Fixpoint count_go (sub : str) (skip : nat) (s : str) : Z :=
  match s with
  | [] => 0
  | _ :: s' =>
      match skip with
      | S k => count_go sub k s'
      | O => if startswith sub s
             then 1 + count_go sub (length sub - 1) s'
             else count_go sub 0 s'
      end
  end.

Definition count (sub s : str) : Z := count_go sub 0 s.

(** [s.split(sep)] for a non-empty [sep]: the pieces between the
    non-overlapping occurrences of [sep], scanning from the left.  [cur]
    holds the current piece, reversed. *)
Fixpoint split_go (sep : str) (skip : nat) (cur : str) (s : str)
  : list str :=
  match s with
  | [] => [rev cur]
  | c :: s' =>
      match skip with
      | S k => split_go sep k cur s'
      | O => if startswith sep s
             then rev cur :: split_go sep (length sep - 1) [] s'
             else split_go sep 0 (c :: cur) s'
      end
  end.

Definition split (sep s : str) : list str := split_go sep 0 [] s.

(** [str(n)] and [f"{n}"] for an [int] *)
Definition str_of_int (n : Z) : str :=
  lit (NilZero.string_of_int (Z.to_int n)).

(** Exceptions.  [PyException] stands for every class deriving from
    [Exception] ([OSError], [UnicodeDecodeError], [IndexError], ...), with
    its class name and its message; [KeyboardInterrupt] and [SystemExit]
    derive from [BaseException] only. *)
Inductive exn : Type :=
| PyException (class_name : str) (msg : str)
| KeyboardInterrupt
| SystemExit (code : Z).

(** [isinstance(e, Exception)] *)
Definition is_Exception (e : exn) : bool :=
  match e with
  | PyException _ _ => true
  | KeyboardInterrupt | SystemExit _ => false
  end.

(** [str(e)] *)
Definition str_of_exn (e : exn) : str :=
  match e with
  | PyException _ msg => msg
  | KeyboardInterrupt => []
  | SystemExit code => str_of_int code
  end.

Definition IndexError : exn :=
  PyException (lit "IndexError") (lit "list index out of range").

(** [os.path.join(a, b)] on a POSIX system *)
Definition path_join (a b : str) : str :=
  if startswith (lit "/") b then b
  else match rev a with
       | [] => b
       | c :: _ => if char_eqb c (chr "/") then a ++ b
                   else a ++ lit "/" ++ b
       end.

End Py.

(* ===================================================================== *)
(** * The fragment of the [re] module                                     *)
(* ===================================================================== *)

Module Re.
Import Py.

(** Patterns.  [Cls p] is a character class given by its membership
    test, which covers literals, [\s], [[A-Z]] and negated sets such as
    [[^=]] (a negated set also matches a newline); [WordB] is [\b]. *)
Inductive regex : Type :=
| Eps
| Cls (p : char -> bool)
| WordB
| Cat (r1 r2 : regex)
| Alt (r1 r2 : regex)
| Star (r : regex).

Definition Chr (a : ascii) : regex := Cls (char_eqb (chr a)).

(** a literal word such as [func] *)
Definition Lit (s : string) : regex :=
  fold_right (fun c r => Cat (Cls (char_eqb c)) r) Eps (lit s).

(** [r+] *)
Definition Plus (r : regex) : regex := Cat r (Star r).

(** [\s] *)
Definition Space : regex := Cls isspace.

(** [[...]] and [[^...]] over listed characters *)
Definition one_of (s : string) (c : char) : bool :=
  existsb (char_eqb c) (lit s).
Definition none_of (s : string) (c : char) : bool := negb (one_of s c).

(** a range [a-z] inside a set *)
Definition in_range (lo hi : ascii) (c : char) : bool :=
  ((chr lo <=? c) && (c <=? chr hi))%N.

Section Matcher.

(** [str.isalnum] on the code points above ASCII: the alphanumeric
    property of the Unicode database the interpreter is built with. *)
Variable unicode_alnum : char -> bool.

(** [\w] on [str] patterns: alphanumeric or underscore. *)
Definition is_word (c : char) : bool :=
  if (c <? 128)%N
  then in_range "a" "z" c || in_range "A" "Z" c || in_range "0" "9" c
       || char_eqb c (chr "_")
  else unicode_alnum c.

Definition is_word_opt (o : option char) : bool :=
  match o with
  | Some c => is_word c
  | None => false
  end.

(** [\b] holds between [prev] and the head of [s] when exactly one of
    the two is a word character; the ends of the text count as
    non-word. *)
Definition boundary (prev : option char) (s : str) : bool :=
  xorb (is_word_opt prev) (is_word_opt (hd_error s)).

(** The matcher, in continuation-passing style: [run r prev s k] tries
    to match [r] at the head of [s], [prev] being the character just
    before, and hands the rest of the text to [k].  Only the truth
    value of a match object is ever used by the script, so the order
    in which alternatives are tried is immaterial.  As in [re], an
    iteration of a starred pattern that consumes nothing ends the
    repetition, so a text of [n] characters allows at most [n]
    iterations. *)
Definition cont : Type := option char -> str -> bool.

Fixpoint star_loop (iter : option char -> str -> cont -> bool)
         (k : cont) (fuel : nat) (prev : option char) (s : str)
         {struct fuel} : bool :=
  match fuel with
  | O => k prev s
  | S fuel' =>
      iter prev s
           (fun p' s' =>
              (length s' <? length s)%nat && star_loop iter k fuel' p' s')
      || k prev s
  end.

Fixpoint run (r : regex) (prev : option char) (s : str) (k : cont)
         {struct r} : bool :=
  match r with
  | Eps => k prev s
  | Cls p =>
      match s with
      | c :: s' => p c && k (Some c) s'
      | [] => false
      end
  | WordB => boundary prev s && k prev s
  | Cat r1 r2 => run r1 prev s (fun p' s' => run r2 p' s' k)
  | Alt r1 r2 => run r1 prev s k || run r2 prev s k
  | Star r1 => star_loop (run r1) k (length s) prev s
  end.

Definition accept (_ : option char) (_ : str) : bool := true.

(** [re.match(r, s)] as a truth value *)
Definition re_match (r : regex) (s : str) : bool :=
  run r None s accept.

(** [re.search(r, s)] as a truth value: a match at some offset *)
Fixpoint search_from (r : regex) (prev : option char) (s : str)
  : bool :=
  run r prev s accept ||
  match s with
  | [] => false
  | c :: s' => search_from r (Some c) s'
  end.

Definition re_search (r : regex) (s : str) : bool :=
  search_from r None s.

(** Declarative semantics: [matches r prev s prev' s'] when [r] matches
    a prefix of [s] and leaves [s']. *)
Inductive matches : regex -> option char -> str
                    -> option char -> str -> Prop :=
| M_Eps prev s : matches Eps prev s prev s
| M_Cls p prev c s : p c = true -> matches (Cls p) prev (c :: s) (Some c) s
| M_WordB prev s : boundary prev s = true -> matches WordB prev s prev s
| M_Cat r1 r2 p0 s0 p1 s1 p2 s2 :
    matches r1 p0 s0 p1 s1 -> matches r2 p1 s1 p2 s2 ->
    matches (Cat r1 r2) p0 s0 p2 s2
| M_AltL r1 r2 p0 s0 p1 s1 :
    matches r1 p0 s0 p1 s1 -> matches (Alt r1 r2) p0 s0 p1 s1
| M_AltR r1 r2 p0 s0 p1 s1 :
    matches r2 p0 s0 p1 s1 -> matches (Alt r1 r2) p0 s0 p1 s1
| M_Star0 r prev s : matches (Star r) prev s prev s
| M_StarS r p0 s0 p1 s1 p2 s2 :
    matches r p0 s0 p1 s1 -> (length s1 < length s0)%nat ->
    matches (Star r) p1 s1 p2 s2 ->
    matches (Star r) p0 s0 p2 s2.

(** the character standing just before the rest of the text once
    [pre] has been passed *)
Definition prev_after (prev : option char) (pre : str) : option char :=
  fold_left (fun _ c => Some c) pre prev.

End Matcher.

End Re.

(* ===================================================================== *)
(** * The checker                                                         *)
(* ===================================================================== *)

Module Checker.
Import Py Re.

Declare Scope re_scope.
Delimit Scope re_scope with re.
Infix "@@" := Cat (at level 60, right associativity) : re_scope.
Infix "<|>" := Alt (at level 65, right associativity) : re_scope.

(** ** The patterns of the script, transcribed *)

(** the pattern "[^!=<>]\s*!\s*[^=]" *)
Definition force_unwrap_re : regex :=
  (Cls (none_of "!=<>") @@ Star Space @@ Chr "!" @@ Star Space
   @@ Cls (none_of "="))%re.

(** the pattern
    "\s*(private\s+|public\s+|internal\s+|fileprivate\s+)*func\s+" *)
Definition func_re : regex :=
  (Star Space
   @@ Star (Lit "private" @@ Plus Space <|> Lit "public" @@ Plus Space
            <|> Lit "internal" @@ Plus Space
            <|> Lit "fileprivate" @@ Plus Space)
   @@ Lit "func" @@ Plus Space)%re.

(** the pattern "// TODO:" *)
Definition todo_re : regex := Lit "// TODO:".

Definition upper : char -> bool := in_range "A" "Z".
Definition lower : char -> bool := in_range "a" "z".
Definition alnum_ascii (c : char) : bool :=
  in_range "a" "z" c || in_range "A" "Z" c || in_range "0" "9" c.

(** the pattern "\b(let|var)\s+(NAME)\s*=" where NAME, the second
    group, is "[A-Z][a-zA-Z0-9]*" *)
Definition variable_re : regex :=
  (WordB @@ (Lit "let" <|> Lit "var") @@ Plus Space
   @@ (Cls upper @@ Star (Cls alnum_ascii)) @@ Star Space @@ Chr "=")%re.

(** the pattern "\b(class|struct|enum|protocol)\s+(NAME)" where NAME,
    the second group, is "[a-z][a-zA-Z0-9]*" *)
Definition type_re : regex :=
  (WordB @@ (Lit "class" <|> Lit "struct" <|> Lit "enum" <|> Lit "protocol")
   @@ Plus Space @@ (Cls lower @@ Star (Cls alnum_ascii)))%re.

(** ** State and control *)

(** The fields of a [SwiftChecker] instance. *)
Record SwiftChecker : Type := mkChecker {
  issues : list str;
  warnings : Z;
  errors : Z
}.

(** [SwiftChecker.__init__] *)
Definition init : SwiftChecker :=
  {| issues := []; warnings := 0; errors := 0 |}.

(** What a run mutates: the one checker instance ([self]) and the lines
    written to standard output by [print]. *)
Record state : Type := mkState {
  self : SwiftChecker;
  stdout : list str
}.

(** A statement either completes with a value or raises; the state
    reached so far is kept in both cases. *)
Inductive res (A : Type) : Type :=
| Val (a : A)
| Raise (e : exn).
Arguments Raise {A} e.

Definition M (A : Type) : Type := state -> res A * state.

Definition ret {A} (a : A) : M A := fun st => (Val a, st).

Definition bind {A B} (c : M A) (f : A -> M B) : M B :=
  fun st =>
    match c st with
    | (Val a, st') => f a st'
    | (Raise e, st') => (Raise e, st')
    end.

Definition raise {A} (e : exn) : M A := fun st => (Raise e, st).

Declare Scope py_scope.
Delimit Scope py_scope with py.
Notation "x <- c ;; k" := (bind c (fun x => k))
  (at level 100, c at next level, right associativity) : py_scope.
Notation "c ;; k" := (bind c (fun _ => k))
  (at level 100, right associativity) : py_scope.
Local Open Scope py_scope.

(** [try: body  except Exception as e: handler(e)] *)
Definition try_except_Exception {A} (body : M A) (handler : exn -> M A)
  : M A :=
  fun st =>
    match body st with
    | (Val a, st') => (Val a, st')
    | (Raise e, st') =>
        if is_Exception e then handler e st' else (Raise e, st')
    end.

(** [for x in l: body(x)] *)
Fixpoint for_each {A} (l : list A) (body : A -> M unit) : M unit :=
  match l with
  | [] => ret tt
  | x :: l' => body x ;; for_each l' body
  end.

(** a [for] loop whose body assigns local variables, gathered in [L] *)
Fixpoint for_each_with {A L} (l : list A) (loc : L)
         (body : L -> A -> M L) : M L :=
  match l with
  | [] => ret loc
  | x :: l' => loc' <- body loc x ;; for_each_with l' loc' body
  end.

(** [enumerate(l, start)] *)
Fixpoint enumerate {A} (l : list A) (start : Z) : list (Z * A) :=
  match l with
  | [] => []
  | x :: l' => (start, x) :: enumerate l' (start + 1)
  end.

(** [l[i]] *)
Definition getitem {A} (l : list A) (i : Z) : M A :=
  let n := Z.of_nat (length l) in
  let j := if i <? 0 then i + n else i in
  if (j <? 0) || (n <=? j) then raise IndexError
  else match nth_error l (Z.to_nat j) with
       | Some x => ret x
       | None => raise IndexError
       end.

(** [print(s)] *)
Definition print (s : str) : M unit :=
  fun st => (Val tt, {| self := self st; stdout := stdout st ++ [s] |}).

(** [sys.exit(code)] *)
Definition sys_exit {A} (code : Z) : M A := raise (SystemExit code).

(** reading and updating the instance *)
Definition get_self : M SwiftChecker := fun st => (Val (self st), st).
Definition set_self (c : SwiftChecker) : M unit :=
  fun st => (Val tt, {| self := c; stdout := stdout st |}).

(** ** [SwiftChecker] *)

(** [log_issue] *)
Definition render (file_path : str) (line_num : Z)
           (severity rule message : str) : str :=
  file_path ++ lit ":" ++ str_of_int line_num ++ lit ": " ++ severity
    ++ lit ": " ++ message ++ lit " (" ++ rule ++ lit ")".

Definition log_issue (file_path : str) (line_num : Z)
           (severity rule message : str) : M unit :=
  let issue := render file_path line_num severity rule message in
  c <- get_self ;;
  set_self {| issues := issues c ++ [issue];
              warnings := warnings c; errors := errors c |} ;;
  c <- get_self ;;
  (if str_eqb severity (lit "error")
   then set_self {| issues := issues c; warnings := warnings c;
                    errors := errors c + 1 |}
   else set_self {| issues := issues c; warnings := warnings c + 1;
                    errors := errors c |}) ;;
  print issue.

Section Environment.

(** The alphanumeric property of the interpreter's Unicode database,
  which [\b] consults for code points above ASCII. *)
Variable unicode_alnum : char -> bool.

(** [check_line_length] *)
Definition line_length_body (file_path : str) (x : Z * str) : M unit :=
  let '(i, line) := x in
  if 120 <? len (rstrip line)
  then log_issue file_path i (lit "warning") (lit "line_length")
         (lit "Line should be 120 characters or less: currently "
          ++ str_of_int (len (rstrip line)) ++ lit " characters")
  else ret tt.

Definition check_line_length (file_path : str) (lines : list str)
  : M unit :=
  for_each (enumerate lines 1) (line_length_body file_path).

(** [check_force_unwrapping] *)
Definition force_unwrapping_msg : str :=
  lit "Avoid force unwrapping! Use optional binding or guard statements".

Definition force_unwrapping_body (file_path : str) (x : Z * str)
  : M unit :=
  let '(i, line) := x in
  code_part <- (if contains (lit "//") line
                then getitem (split (lit "//") line) 0
                else ret line) ;;
  if re_search unicode_alnum force_unwrap_re code_part
  then log_issue file_path i (lit "warning") (lit "force_unwrapping")
         force_unwrapping_msg
  else ret tt.

Definition check_force_unwrapping (file_path : str) (lines : list str)
  : M unit :=
  for_each (enumerate lines 1) (force_unwrapping_body file_path).

(** [check_try_force] *)
Definition try_force_body (file_path : str) (x : Z * str) : M unit :=
  let '(i, line) := x in
  if contains (lit "try!") line
     && negb (startswith (lit "//") (strip line))
  then log_issue file_path i (lit "warning") (lit "try_force")
         (lit "Avoid try! - use proper error handling with do-catch or try?")
  else ret tt.

Definition check_try_force (file_path : str) (lines : list str)
  : M unit :=
  for_each (enumerate lines 1) (try_force_body file_path).

(** [check_function_length]: the local variables of the loop *)
Record fl_locals : Type := mkLocals {
  in_function : bool;
  function_start : Z;
  brace_count : Z
}.

Definition fl_init : fl_locals :=
  {| in_function := false; function_start := 0; brace_count := 0 |}.

Definition brace_delta (line : str) : Z :=
  count (lit "{") line - count (lit "}") line.

Definition function_length_msg (function_length : Z) : str :=
  lit "Function body should be 60 lines or less: currently "
  ++ str_of_int function_length ++ lit " lines".

Definition fl_body (file_path : str) (loc : fl_locals) (x : Z * str)
  : M fl_locals :=
  let '(i, line) := x in
  let stripped := strip line in
  if re_match unicode_alnum func_re stripped then
    if contains (lit "{") line
    then ret {| in_function := true; function_start := i;
                brace_count := brace_delta line |}
    else ret loc
  else if in_function loc then
    let loc := {| in_function := in_function loc;
                  function_start := function_start loc;
                  brace_count := brace_count loc + brace_delta line |} in
    if brace_count loc <=? 0 then
      let function_length := i - function_start loc + 1 in
      (if 60 <? function_length
       then log_issue file_path (function_start loc) (lit "warning")
              (lit "function_body_length")
              (function_length_msg function_length)
       else ret tt) ;;
      ret {| in_function := false; function_start := function_start loc;
             brace_count := brace_count loc |}
    else ret loc
  else ret loc.

Definition fl_loop (file_path : str) (lines : list (Z * str))
           (loc : fl_locals) : M fl_locals :=
  for_each_with lines loc (fl_body file_path).

Definition check_function_length (file_path : str) (lines : list str)
  : M unit :=
  fl_loop file_path (enumerate lines 1) fl_init ;; ret tt.

(** [check_todo_format] *)
Definition todo_format_msg : str :=
  lit "TODO comments should include context: // TODO: Description".

Definition todo_format_body (file_path : str) (x : Z * str) : M unit :=
  let '(i, line) := x in
  if contains (lit "// TODO") line
     && negb (re_search unicode_alnum todo_re line)
  then log_issue file_path i (lit "warning") (lit "todo_format")
         todo_format_msg
  else ret tt.

Definition check_todo_format (file_path : str) (lines : list str)
  : M unit :=
  for_each (enumerate lines 1) (todo_format_body file_path).

(** [check_naming_conventions] *)
Definition variable_name_msg : str :=
  lit "Variable names should start with lowercase letter (camelCase)".
Definition type_name_msg : str :=
  lit "Type names should start with uppercase letter (PascalCase)".

Definition naming_conventions_body (file_path : str) (x : Z * str)
  : M unit :=
  let '(i, line) := x in
  (if re_search unicode_alnum variable_re line
   then log_issue file_path i (lit "warning") (lit "variable_name")
          variable_name_msg
   else ret tt) ;;
  (if re_search unicode_alnum type_re line
   then log_issue file_path i (lit "warning") (lit "type_name")
          type_name_msg
   else ret tt).

Definition check_naming_conventions (file_path : str)
           (lines : list str) : M unit :=
  for_each (enumerate lines 1) (naming_conventions_body file_path).

(** What the process sees of its surroundings: the command line, and
    the answers of [os.path.isdir], of the recursive [glob.glob] and of
    opening a file and reading its lines (which may raise). *)
Variable argv : list str.
Variable isdir : str -> bool.
Variable glob : str -> list str.
Variable open_readlines : str -> res (list str).

(** [check_file] *)
Definition check_file (file_path : str) : M unit :=
  try_except_Exception
    (lines <- (fun st => (open_readlines file_path, st)) ;;
     print (lit "Linting " ++ file_path) ;;
     check_line_length file_path lines ;;
     check_force_unwrapping file_path lines ;;
     check_try_force file_path lines ;;
     check_function_length file_path lines ;;
     check_todo_format file_path lines ;;
     check_naming_conventions file_path lines)
    (fun e =>
       print (lit "Error checking " ++ file_path ++ lit ": "
              ++ str_of_exn e)).

(** [check_directory] *)
Definition check_directory (directory : str) : M unit :=
  let swift_files := glob (path_join directory (lit "**/*.swift")) in
  match swift_files with
  | [] => print (lit "No Swift files found in " ++ directory)
  | _ :: _ =>
      print (lit "Found " ++ str_of_int (Z.of_nat (length swift_files))
             ++ lit " Swift files to check") ;;
      for_each swift_files check_file
  end.

(** [summary]; the two pictographs are U+2705 and U+1F4CA. *)
Definition summary : M bool :=
  c <- get_self ;;
  (if (warnings c =? 0) && (errors c =? 0)
   then print (9989%N :: lit " No issues found!")
   else print (10%N :: 128202%N :: lit " Summary: "
               ++ str_of_int (warnings c) ++ lit " warnings, "
               ++ str_of_int (errors c) ++ lit " errors")) ;;
  c <- get_self ;;
  ret (0 <? errors c).

(** [main] *)
Definition main : M unit :=
  if Z.of_nat (length argv) <? 2 then
    print (lit "Usage: python3 swift-check.py <directory>") ;;
    sys_exit 1
  else
    directory <- getitem argv 1 ;;
    if negb (isdir directory) then
      print (lit "Error: " ++ directory ++ lit " is not a directory") ;;
      sys_exit 1
    else
      set_self init ;;
      check_directory directory ;;
      has_errors <- summary ;;
      sys_exit (if has_errors : bool then 1 else 0).

(** How the process ends: [sys.exit(code)] gives the exit code, [main]
    returning gives 0, any other exception reaches the top level
    uncaught. *)
Inductive outcome : Type :=
| Exited (code : Z)
| Uncaught (e : exn).

Definition start : state := {| self := init; stdout := [] |}.

Definition run_process : outcome * state :=
  match main start with
  | (Val _, st) => (Exited 0, st)
  | (Raise (SystemExit code), st) => (Exited code, st)
  | (Raise e, st) => (Uncaught e, st)
  end.

End Environment.

(** ** Vocabulary for the statements *)

(** The five arguments of one call of [log_issue]. *)
Record Issue : Type := mkIssue {
  issue_file : str;
  issue_line : Z;
  issue_severity : str;
  issue_rule : str;
  issue_message : str
}.

Definition log (x : Issue) : M unit :=
  log_issue (issue_file x) (issue_line x) (issue_severity x)
            (issue_rule x) (issue_message x).

(** the calls of [log_issue] on the members of [l], in order *)
Definition log_all (l : list Issue) : M unit := for_each l log.

Definition warning (file_path : str) (line_num : Z) (rule : string)
           (message : str) : Issue :=
  mkIssue file_path line_num (lit "warning") (lit rule) message.

(** the text of an issue as [log_issue] builds it *)
Definition render_issue (x : Issue) : str :=
  render (issue_file x) (issue_line x) (issue_severity x)
         (issue_rule x) (issue_message x).

Definition has_severity (sev : string) (x : Issue) : bool :=
  str_eqb (issue_severity x) (lit sev).

(** the number of members of [l] of severity [sev] *)
Definition count_severity (sev : string) (l : list Issue) : Z :=
  Z.of_nat (length (filter (has_severity sev) l)).

(** the part of a line that [check_force_unwrapping] examines *)
Definition code_part (line : str) : str :=
  if contains (lit "//") line
  then hd [] (split (lit "//") line)
  else line.

(** a line that starts a span: it has the shape of a function declaration
    and holds an opening brace *)
Definition is_func_decl (ua : char -> bool) (line : str) : bool :=
  re_match ua func_re (strip line).

Definition opens_span (ua : char -> bool) (line : str) : bool :=
  is_func_decl ua line && contains (lit "{") line.

(** the brace depth of a span opened on [decl] once the lines [body] that
    follow it have been counted *)
Definition depth_after (decl : str) (body : list str) : Z :=
  fold_left (fun d l => d + brace_delta l) body (brace_delta decl).

(** One step of the span tracker: the new locals, and at most one issue. *)
Definition fl_next (ua : char -> bool) (loc : fl_locals) (x : Z * str) : fl_locals :=
  let '(i, line) := x in
  if is_func_decl ua line then
    if contains (lit "{") line
    then mkLocals true i (brace_delta line)
    else loc
  else if in_function loc then
    mkLocals (negb (brace_count loc + brace_delta line <=? 0))
             (function_start loc) (brace_count loc + brace_delta line)
  else loc.

Definition fl_report (ua : char -> bool) (fp : str) (loc : fl_locals) (x : Z * str) : list Issue :=
  let '(i, line) := x in
  if negb (is_func_decl ua line) && in_function loc
     && (brace_count loc + brace_delta line <=? 0)
     && (60 <? i - function_start loc + 1)
  then [warning fp (function_start loc) "function_body_length"
          (function_length_msg (i - function_start loc + 1))]
  else [].

(** the locals after the lines [lines], and the issues reported on the way *)
Definition fl_locals_after (ua : char -> bool) (lines : list (Z * str))
           (loc : fl_locals) : fl_locals :=
  fold_left (fl_next ua) lines loc.

Fixpoint fl_reports (ua : char -> bool) (fp : str) (lines : list (Z * str))
         (loc : fl_locals) : list Issue :=
  match lines with
  | [] => []
  | x :: lines' =>
      fl_report ua fp loc x ++ fl_reports ua fp lines' (fl_next ua loc x)
  end.

(** a statement that completes normally and leaves the error counter as
    it found it *)
Definition only_warns (c : M unit) : Prop :=
  forall st, exists st',
    c st = (Val tt, st') /\ errors (self st') = errors (self st).

Definition is_warning (x : Issue) : Prop := issue_severity x = lit "warning".

(** the number of the last line of [lines] that opens a span, if any *)
Definition last_opening (ua : char -> bool) (lines : list (Z * str))
  : option Z :=
  fold_left (fun o x => if opens_span ua (snd x) then Some (fst x) else o)
            lines None.

(** What the pattern of [check_force_unwrapping] finds: a '!' with a
    character just before it that is none of '!', '=', '<', '>' and a
    character just after it that is not '='. *)
Definition unwrap_shape (code : str) : Prop :=
  exists pre x y post,
    code = pre ++ x :: chr "!" :: y :: post
    /\ none_of "!=<>" x = true /\ none_of "=" y = true.

(** A '!' that is not immediately preceded by '!', '=', '<' or '>' and not
    immediately followed by '=': the text may begin or end at the '!'. *)
Definition unwrap_as_claimed (code : str) : Prop :=
  exists pre post,
    code = pre ++ chr "!" :: post
    /\ (pre = [] \/ exists pre' x, pre = pre' ++ [x]
                                   /\ none_of "!=<>" x = true)
    /\ (post = [] \/ exists y post', post = y :: post'
                                     /\ none_of "=" y = true).

(** [code] is the text of [line] before its first occurrence of [sep] *)
Definition before_first (sep code line : str) : Prop :=
  exists rest,
    line = code ++ sep ++ rest
    /\ forall a b, code = a ++ b -> b <> [] ->
                   startswith sep (b ++ sep ++ rest) = false.

(** some occurrence of the to-do marker is immediately followed by a
    colon *)
Definition marker_with_colon (line : str) : Prop :=
  exists pre post, line = pre ++ lit "// TODO" ++ chr ":" :: post.

(** [pre] ends where a word may begin: it is empty or its last character
    is no word character *)
Definition word_start (ua : char -> bool) (pre : str) : Prop :=
  is_word_opt ua (prev_after None pre) = false.

(** What the variable pattern finds: [let] or [var] at a word start,
    whitespace, a name made of an uppercase letter and ASCII letters or
    digits, optional whitespace, and '='. *)
Definition variable_shape (ua : char -> bool) (line : str) : Prop :=
  exists pre kw ws u name ws' post,
    line = pre ++ kw ++ ws ++ u :: name ++ ws' ++ chr "=" :: post
    /\ word_start ua pre
    /\ (kw = lit "let" \/ kw = lit "var")
    /\ ws <> [] /\ forallb isspace ws = true
    /\ upper u = true /\ forallb alnum_ascii name = true
    /\ forallb isspace ws' = true.

(** What the type pattern finds: one of the four keywords at a word
    start, whitespace, and a lowercase letter; what follows is free. *)
Definition type_shape (ua : char -> bool) (line : str) : Prop :=
  exists pre kw ws c post,
    line = pre ++ kw ++ ws ++ c :: post
    /\ word_start ua pre
    /\ (kw = lit "class" \/ kw = lit "struct" \/ kw = lit "enum"
        \/ kw = lit "protocol")
    /\ ws <> [] /\ forallb isspace ws = true
    /\ lower c = true.

End Checker.

(* ===================================================================== *)
(** * Sample inputs                                                       *)
(* ===================================================================== *)

Module Samples.
Import Py Re Checker.

(** an interpreter table with no alphanumeric above ASCII; the samples
    are ASCII, so the table is never consulted on them *)
Definition ascii_only (c : char) : bool := false.

(** A run over one file holding one ill-formed TODO line. *)
Definition demo_glob (pattern : str) : list str := [lit "a.swift"].
Definition demo_read (path : str) : res (list str) :=
  Val [lit "// TODO later"].
Definition demo_argv : list str := [lit "swift-check.py"; lit "src"].
Definition demo_isdir (path : str) : bool := true.

Definition demo_calls : list Issue :=
  [ warning (lit "a.swift") 3 "todo_format" todo_format_msg;
    mkIssue (lit "a.swift") 0 (lit "error") (lit "read") (lit "unreadable");
    warning (lit "a.swift") 7 "try_force" (lit "Avoid try!") ].

(** A function declared on line 10 with [n] lines between the declaration
    and the closing brace, and nothing after it. *)
Definition long_function (n : nat) : list str :=
  repeat (lit "import Foundation") 9
  ++ lit "func f() {" :: repeat (lit "    total += 1") n
  ++ lit "}" :: [].

(** A function of 64 lines holding, from its second line on, a nested
    function of 62 lines. *)
Definition nested_file : list str :=
  lit "func outer() {" :: lit "  func inner() {"
  :: repeat (lit "    total += 1") 60 ++ [lit "  }"; lit "}"].

(** A read during which the operator interrupts the process. *)
Definition interrupted_read (path : str) : res (list str) :=
  Raise KeyboardInterrupt.

End Samples.

(* ===================================================================== *)
(** * What a run reports, as plain lists                                  *)
(* ===================================================================== *)

Module Reports.
Import Py Re Checker.

Definition line_length_msg (n : Z) : str :=
  lit "Line should be 120 characters or less: currently "
  ++ str_of_int n ++ lit " characters".

Definition try_force_msg : str :=
  lit "Avoid try! - use proper error handling with do-catch or try?".

(** The issues each rule finds in the lines of a file, in the order in
    which the rule logs them. *)
Definition line_length_report (fp : str) (lines : list str) : list Issue :=
  flat_map (fun x =>
    if 120 <? len (rstrip (snd x))
    then [warning fp (fst x) "line_length"
            (line_length_msg (len (rstrip (snd x))))]
    else []) (enumerate lines 1).

Definition force_unwrapping_report (ua : char -> bool) (fp : str)
           (lines : list str) : list Issue :=
  flat_map (fun x =>
    if re_search ua force_unwrap_re (code_part (snd x))
    then [warning fp (fst x) "force_unwrapping" force_unwrapping_msg]
    else []) (enumerate lines 1).

Definition try_force_report (fp : str) (lines : list str) : list Issue :=
  flat_map (fun x =>
    if contains (lit "try!") (snd x)
       && negb (startswith (lit "//") (strip (snd x)))
    then [warning fp (fst x) "try_force" try_force_msg]
    else []) (enumerate lines 1).

Definition function_length_report (ua : char -> bool) (fp : str)
           (lines : list str) : list Issue :=
  fl_reports ua fp (enumerate lines 1) fl_init.

Definition todo_format_report (ua : char -> bool) (fp : str)
           (lines : list str) : list Issue :=
  flat_map (fun x =>
    if contains (lit "// TODO") (snd x)
       && negb (re_search ua todo_re (snd x))
    then [warning fp (fst x) "todo_format" todo_format_msg]
    else []) (enumerate lines 1).

Definition naming_report (ua : char -> bool) (fp : str)
           (lines : list str) : list Issue :=
  flat_map (fun x =>
    (if re_search ua variable_re (snd x)
     then [warning fp (fst x) "variable_name" variable_name_msg]
     else [])
    ++ (if re_search ua type_re (snd x)
        then [warning fp (fst x) "type_name" type_name_msg]
        else [])) (enumerate lines 1).

(** The issues of one file: rule after rule, in the order of the calls
    in [check_file]. *)
Definition file_report (ua : char -> bool) (fp : str) (lines : list str)
  : list Issue :=
  line_length_report fp lines
  ++ force_unwrapping_report ua fp lines
  ++ try_force_report fp lines
  ++ function_length_report ua fp lines
  ++ todo_format_report ua fp lines
  ++ naming_report ua fp lines.

(** The checker after one call of [log_issue], and after a list of them. *)
Definition log_one (c : SwiftChecker) (x : Issue) : SwiftChecker :=
  {| issues := issues c ++ [render_issue x];
     warnings := if has_severity "error" x
                 then warnings c else warnings c + 1;
     errors := if has_severity "error" x
               then errors c + 1 else errors c |}.

Definition logged (l : list Issue) (c : SwiftChecker) : SwiftChecker :=
  fold_left log_one l c.

(** What one file adds to the log and to the console. *)
Definition file_issues (ua : char -> bool) (rd : str -> res (list str))
           (f : str) : list Issue :=
  match rd f with
  | Val lines => file_report ua f lines
  | Raise _ => []
  end.

Definition error_checking_line (f : str) (e : exn) : str :=
  lit "Error checking " ++ f ++ lit ": " ++ str_of_exn e.

Definition file_output (ua : char -> bool) (rd : str -> res (list str))
           (f : str) : list str :=
  match rd f with
  | Val lines =>
      (lit "Linting " ++ f) :: map render_issue (file_report ua f lines)
  | Raise e => [error_checking_line f e]
  end.

(** What a whole run adds to the log, and the lines it prints. *)
Definition run_issues (ua : char -> bool) (rd : str -> res (list str))
           (files : list str) : list Issue :=
  flat_map (file_issues ua rd) files.

Definition found_line (files : list str) : str :=
  lit "Found " ++ str_of_int (Z.of_nat (length files))
  ++ lit " Swift files to check".

Definition summary_line (w e : Z) : str :=
  if (w =? 0) && (e =? 0)
  then 9989%N :: lit " No issues found!"
  else 10%N :: 128202%N :: lit " Summary: "
       ++ str_of_int w ++ lit " warnings, "
       ++ str_of_int e ++ lit " errors".

Definition run_output (ua : char -> bool) (rd : str -> res (list str))
           (directory : str) (files : list str) : list str :=
  match files with
  | [] => [lit "No Swift files found in " ++ directory]
  | _ :: _ => found_line files :: flat_map (file_output ua rd) files
  end
  ++ [summary_line (Z.of_nat (length (run_issues ua rd files))) 0].

(** every read either succeeds or fails with an ordinary exception *)
Definition uninterrupted (rd : str -> res (list str)) (files : list str)
  : Prop :=
  forall f, In f files -> forall e, rd f = Raise e -> is_Exception e = true.

(** The lines that have the shape of a function declaration: a run of
    access modifiers, each followed by whitespace, then [func] and a
    whitespace character. *)
Definition is_modifier (kw : str) : Prop :=
  kw = lit "private" \/ kw = lit "public" \/ kw = lit "internal"
  \/ kw = lit "fileprivate".

Inductive modifiers : str -> Prop :=
| modifiers_nil : modifiers []
| modifiers_cons kw sp ws rest :
    is_modifier kw -> isspace sp = true -> forallb isspace ws = true ->
    modifiers rest -> modifiers (kw ++ sp :: ws ++ rest).

Definition declaration_shape (s : str) : Prop :=
  exists m sp rest,
    s = m ++ lit "func" ++ sp :: rest /\ modifiers m /\ isspace sp = true.

End Reports.

(* ===================================================================== *)
(** * More sample inputs                                                  *)
(* ===================================================================== *)

Module Worlds.
Import Py Re Checker Samples Reports.

(** a line of 121 letters *)
Definition long_line : str := repeat (chr "x") 121.

(** Two files: the first cannot be read, the second holds an ill-formed
    to-do on line 1 and an over-long line on line 2. *)
Definition two_files_glob (pattern : str) : list str :=
  [lit "a.swift"; lit "b.swift"].

Definition two_files_read (path : str) : res (list str) :=
  if str_eqb path (lit "a.swift")
  then Raise (PyException (lit "PermissionError") (lit "Permission denied"))
  else Val [lit "// TODO later"; long_line].

Definition no_files_glob (pattern : str) : list str := [].

Definition not_a_directory (path : str) : bool := false.

(** A function of 70 lines whose opening brace stands on the line after
    the declaration. *)
Definition brace_on_next_line : list str :=
  lit "func f()" :: lit "{" :: repeat (lit "    total += 1") 68 ++ [lit "}"].

(** A function opened on line 1 and never closed, 80 lines long. *)
Definition unclosed_function : list str :=
  lit "func f() {" :: repeat (lit "    total += 1") 79.

End Worlds.

(* ===================================================================== *)
(** * Facts about the runtime fragment                                    *)
(* ===================================================================== *)

Module PyFacts.
Import Py.

Lemma char_eqb_eq (a b : char) : char_eqb a b = true <-> a = b.
Proof. apply N.eqb_eq. Qed.

Lemma char_eqb_refl (a : char) : char_eqb a a = true.
Proof. apply N.eqb_refl. Qed.

Lemma str_eqb_eq (a b : str) : str_eqb a b = true <-> a = b.
Proof.
  revert b; induction a as [|x a IH]; intros [|y b]; simpl;
    try (split; congruence).
  rewrite andb_true_iff, char_eqb_eq, IH. split.
  - intros [-> ->]; reflexivity.
  - intros E; injection E; auto.
Qed.

(** [startswith] recognises prefixes. *)
Lemma startswith_iff (p s : str) :
  startswith p s = true <-> exists rest, s = p ++ rest.
Proof.
  revert s; induction p as [|x p IH]; intros s; simpl.
  - split; eauto.
  - destruct s as [|y s].
    + split; [discriminate | intros [rest E]; discriminate].
    + rewrite andb_true_iff, char_eqb_eq, IH. split.
      * intros [-> [rest ->]]. eauto.
      * intros [rest E]. injection E as -> ->. eauto.
Qed.

(** [sub in s] holds exactly when [sub] occurs somewhere in [s]. *)
Lemma contains_iff (sub s : str) :
  contains sub s = true <-> exists pre post, s = pre ++ sub ++ post.
Proof.
  induction s as [|c s IH]; simpl.
  - rewrite orb_false_r, startswith_iff. split.
    + intros [rest E]. exists [], rest. exact E.
    + intros (pre & post & E). destruct pre; simpl in E.
      * eauto.
      * discriminate.
  - rewrite orb_true_iff, startswith_iff, IH. split.
    + intros [[rest E] | (pre & post & E)].
      * exists [], rest. exact E.
      * exists (c :: pre), post. simpl. congruence.
    + intros (pre & post & E). destruct pre as [|x pre]; simpl in E.
      * left. eauto.
      * right. injection E as _ E. eauto.
Qed.

(** [split] never returns an empty list, and its first piece is the
    text before the first occurrence of the separator. *)
Lemma split_go_cons (sep : str) (skip : nat) (cur s : str) :
  exists x rest, split_go sep skip cur s = x :: rest.
Proof.
  revert skip cur; induction s as [|c s IH]; intros skip cur; simpl.
  - eauto.
  - destruct skip as [|k]; [destruct (startswith sep (c :: s))|]; eauto.
Qed.

Lemma split_go_first (sep cur s : str) :
  contains sep s = true ->
  exists code rest,
    hd_error (split_go sep 0 cur s) = Some (rev cur ++ code)
    /\ s = code ++ sep ++ rest
    /\ (forall a b, code = a ++ b -> b <> [] ->
        startswith sep (b ++ sep ++ rest) = false).
Proof.
  revert cur; induction s as [|c s IH]; intros cur; simpl.
  - rewrite orb_false_r. intros H.
    assert (sep = []) as -> by (destruct sep; [reflexivity | discriminate]).
    simpl.
    exists [], []. rewrite app_nil_r. repeat split.
    intros a b E. destruct a; destruct b; simpl in E; congruence.
  - destruct (startswith sep (c :: s)) eqn:Hs; simpl.
    + intros _. apply startswith_iff in Hs as [rest E].
      exists [], rest. rewrite app_nil_r. repeat split; auto.
      intros a b E'. destruct a; destruct b; simpl in E'; congruence.
    + intros Hc. destruct (IH (c :: cur) Hc) as (code & rest & H1 & H2 & H3).
      exists (c :: code), rest. simpl in H1. rewrite <- app_assoc in H1.
      repeat split.
      * exact H1.
      * simpl. congruence.
      * intros a b E Hb. destruct a as [|x a]; simpl in E.
        -- subst b. simpl. rewrite <- H2. exact Hs.
        -- injection E as -> E. eauto.
Qed.

End PyFacts.

Module ReFacts.
Import Py Re PyFacts.

Section WithTable.
Variable ua : char -> bool.

Local Abbreviation matches := (matches ua).
Local Abbreviation run := (run ua).

(** A match leaves a suffix of the text. *)
Lemma matches_suffix r p s p' s' :
  matches r p s p' s' -> exists w, s = w ++ s'.
Proof.
  induction 1; try (exists []; reflexivity).
  - exists [c]; reflexivity.
  - destruct IHmatches1 as [w1 ->], IHmatches2 as [w2 ->].
    exists (w1 ++ w2). now rewrite app_assoc.
  - assumption.
  - assumption.
  - destruct IHmatches1 as [w1 ->], IHmatches2 as [w2 ->].
    exists (w1 ++ w2). now rewrite app_assoc.
Qed.

(** The repetition loop, given a correct matcher for the body. *)
Lemma star_loop_spec r (k : cont)
      (IH : forall p s k', run r p s k' = true <->
                           exists p' s', matches r p s p' s'
                                         /\ k' p' s' = true) :
  forall fuel p s, (length s <= fuel)%nat ->
    star_loop (run r) k fuel p s = true <->
    exists p' s', matches (Star r) p s p' s' /\ k p' s' = true.
Proof.
  induction fuel as [|fuel IHf]; intros p s Hlen; simpl.
  - split.
    + intros Hk. exists p, s. split; [constructor | exact Hk].
    + intros (p' & s' & Hm & Hk).
      inversion Hm; subst; [exact Hk | lia].
  - rewrite orb_true_iff, IH. split.
    + intros [(p1 & s1 & Hm & Hk) | Hk].
      * apply andb_true_iff in Hk as [Hlt Hk].
        apply Nat.ltb_lt in Hlt.
        apply IHf in Hk as (p2 & s2 & Hm2 & Hk2); [|lia].
        exists p2, s2. split; [|exact Hk2].
        eapply M_StarS; eauto.
      * exists p, s. split; [constructor | exact Hk].
    + intros (p' & s' & Hm & Hk).
      inversion Hm; subst.
      * right; exact Hk.
      * left. exists p1, s1. split; [assumption|].
        apply andb_true_iff. split; [apply Nat.ltb_lt; assumption|].
        apply IHf; [lia|]. eauto.
Qed.

(** The matcher decides the declarative semantics. *)
Theorem run_spec r :
  forall p s (k : cont),
    run r p s k = true <->
    exists p' s', matches r p s p' s' /\ k p' s' = true.
Proof.
  induction r as [| c | | r1 IH1 r2 IH2 | r1 IH1 r2 IH2 | r IH];
    intros p s k; simpl.
  - split.
    + intros Hk. exists p, s. split; [constructor | exact Hk].
    + intros (p' & s' & Hm & Hk). inversion Hm; subst. exact Hk.
  - destruct s as [|x s].
    + split; [discriminate|].
      intros (p' & s' & Hm & _). inversion Hm.
    + rewrite andb_true_iff. split.
      * intros [Hc Hk]. exists (Some x), s.
        split; [constructor; exact Hc | exact Hk].
      * intros (p' & s' & Hm & Hk). inversion Hm; subst. auto.
  - rewrite andb_true_iff. split.
    + intros [Hb Hk]. exists p, s.
      split; [constructor; exact Hb | exact Hk].
    + intros (p' & s' & Hm & Hk). inversion Hm; subst. auto.
  - rewrite IH1. split.
    + intros (p1 & s1 & Hm1 & Hk). apply IH2 in Hk as (p2 & s2 & Hm2 & Hk).
      exists p2, s2. split; [econstructor; eauto | exact Hk].
    + intros (p2 & s2 & Hm & Hk). inversion Hm; subst.
      exists p1, s1. split; [assumption|]. apply IH2. eauto.
  - rewrite orb_true_iff, IH1, IH2. split.
    + intros [(p' & s' & Hm & Hk) | (p' & s' & Hm & Hk)];
        exists p', s'; split; auto using M_AltL, M_AltR.
    + intros (p' & s' & Hm & Hk). inversion Hm; subst; eauto.
  - apply star_loop_spec; auto.
Qed.

Lemma search_from_spec r : forall s prev,
  search_from ua r prev s = true <->
  exists pre suf p' s',
    s = pre ++ suf /\ matches r (prev_after prev pre) suf p' s'.
Proof.
  induction s as [|c s IH]; intros prev; simpl.
  - rewrite orb_false_r, run_spec. split.
    + intros (p' & s' & H & _). exists [], [], p', s'. auto.
    + intros (pre & suf & p' & s' & E & H).
      destruct pre; [|discriminate]. simpl in E. subst suf.
      exists p', s'. auto.
  - rewrite orb_true_iff, run_spec, IH. split.
    + intros [(p' & s' & H & _) | (pre & suf & p' & s' & E & H)].
      * exists [], (c :: s), p', s'. auto.
      * exists (c :: pre), suf, p', s'. simpl. split; congruence.
    + intros (pre & suf & p' & s' & E & H).
      destruct pre as [|x pre]; simpl in E.
      * left. subst suf. exists p', s'. auto.
      * right. injection E as -> E. exists pre, suf, p', s'. auto.
Qed.

Lemma re_search_spec r s :
  re_search ua r s = true <->
  exists pre suf p' s',
    s = pre ++ suf /\ matches r (prev_after None pre) suf p' s'.
Proof. apply search_from_spec. Qed.

(** *** Reading a match off the shape of the pattern *)

Lemma matches_Eps_iff p s p' s' :
  matches Eps p s p' s' <-> p' = p /\ s' = s.
Proof.
  split.
  - inversion 1; auto.
  - intros [-> ->]. constructor.
Qed.

Lemma matches_Cls_iff P p s p' s' :
  matches (Cls P) p s p' s' <->
  exists c, s = c :: s' /\ P c = true /\ p' = Some c.
Proof.
  split.
  - inversion 1; subst. eauto.
  - intros (c & -> & H & ->). constructor. exact H.
Qed.

Lemma matches_WordB_iff p s p' s' :
  matches WordB p s p' s' <-> boundary ua p s = true /\ p' = p /\ s' = s.
Proof.
  split.
  - inversion 1; auto.
  - intros (H & -> & ->). constructor. exact H.
Qed.

Lemma matches_Cat_iff r1 r2 p s p' s' :
  matches (Cat r1 r2) p s p' s' <->
  exists p1 s1, matches r1 p s p1 s1 /\ matches r2 p1 s1 p' s'.
Proof.
  split.
  - inversion 1; subst. eauto.
  - intros (p1 & s1 & H1 & H2). econstructor; eauto.
Qed.

Lemma matches_Alt_iff r1 r2 p s p' s' :
  matches (Alt r1 r2) p s p' s' <->
  matches r1 p s p' s' \/ matches r2 p s p' s'.
Proof.
  split.
  - inversion 1; subst; auto.
  - intros [H | H]; [apply M_AltL | apply M_AltR]; exact H.
Qed.

Lemma prev_after_app p a b :
  prev_after p (a ++ b) = prev_after (prev_after p a) b.
Proof. unfold prev_after. apply fold_left_app. Qed.

(** A literal matches itself and nothing else. *)
Lemma matches_literal_iff (l : str) : forall p s p' s',
  matches (fold_right (fun c r => Cat (Cls (char_eqb c)) r) Eps l) p s p' s'
  <-> s = l ++ s' /\ p' = prev_after p l.
Proof.
  induction l as [|c l IH]; intros p s p' s'; simpl.
  - rewrite matches_Eps_iff. split; intros [-> ->]; auto.
  - rewrite matches_Cat_iff. split.
    + intros (p1 & s1 & H1 & H2).
      apply matches_Cls_iff in H1 as (x & -> & Hx & ->).
      apply char_eqb_eq in Hx. subst x.
      apply IH in H2 as [-> ->]. auto.
    + intros [-> ->]. exists (Some c), (l ++ s'). split.
      * apply matches_Cls_iff. exists c. rewrite char_eqb_refl. auto.
      * apply IH. auto.
Qed.

Lemma matches_Lit_iff (w : string) p s p' s' :
  matches (Lit w) p s p' s' <-> s = lit w ++ s' /\ p' = prev_after p (lit w).
Proof. apply matches_literal_iff. Qed.

(** A starred class matches a run of characters of the class. *)
Lemma matches_star_cls P p s p' s' :
  matches (Star (Cls P)) p s p' s' ->
  exists w, s = w ++ s' /\ forallb P w = true /\ p' = prev_after p w.
Proof.
  remember (Star (Cls P)) as r eqn:Hr. intros H.
  induction H; try discriminate.
  - exists []. auto.
  - injection Hr as ->.
    apply matches_Cls_iff in H as (c & -> & Hc & ->).
    destruct (IHmatches2 eq_refl) as (w & -> & Hw & ->).
    exists (c :: w). simpl. rewrite Hc, Hw. auto.
Qed.

Lemma star_cls_matches P w : forall p s',
  forallb P w = true ->
  matches (Star (Cls P)) p (w ++ s') (prev_after p w) s'.
Proof.
  induction w as [|c w IH]; intros p s' H; simpl in *.
  - constructor.
  - apply andb_true_iff in H as [Hc Hw].
    eapply M_StarS.
    + constructor. exact Hc.
    + simpl. lia.
    + apply IH. exact Hw.
Qed.

Lemma matches_star_cls_iff P p s p' s' :
  matches (Star (Cls P)) p s p' s' <->
  exists w, s = w ++ s' /\ forallb P w = true /\ p' = prev_after p w.
Proof.
  split.
  - apply matches_star_cls.
  - intros (w & -> & H & ->). apply star_cls_matches. exact H.
Qed.

Lemma matches_plus_cls_iff P p s p' s' :
  matches (Plus (Cls P)) p s p' s' <->
  exists c w, s = c :: w ++ s' /\ P c = true /\ forallb P w = true
              /\ p' = prev_after p (c :: w).
Proof.
  unfold Plus. rewrite matches_Cat_iff. split.
  - intros (p1 & s1 & H1 & H2).
    apply matches_Cls_iff in H1 as (c & -> & Hc & ->).
    apply matches_star_cls_iff in H2 as (w & -> & Hw & ->).
    exists c, w. auto.
  - intros (c & w & -> & Hc & Hw & ->).
    exists (Some c), (w ++ s'). split.
    + apply matches_Cls_iff. eauto.
    + apply matches_star_cls_iff. exists w. auto.
Qed.

(** Searching for a literal is the substring test. *)
Lemma re_search_Lit (w : string) (s : str) :
  re_search ua (Lit w) s = contains (lit w) s.
Proof.
  apply eq_true_iff_eq. rewrite re_search_spec, contains_iff. split.
  - intros (pre & suf & p' & s' & -> & H).
    apply matches_Lit_iff in H as [-> _]. eauto.
  - intros (pre & post & ->).
    exists pre, (lit w ++ post), (prev_after (prev_after None pre) (lit w)), post.
    split; [reflexivity|]. apply matches_Lit_iff. auto.
Qed.

End WithTable.

End ReFacts.

(* ===================================================================== *)
(** * Facts about the checker                                             *)
(* ===================================================================== *)

Module CheckerFacts.
Import Py Re Checker PyFacts ReFacts.
Local Open Scope py_scope.

(** ** Control *)

Lemma enumerate_app {A} (a b : list A) (k : Z) :
  enumerate (a ++ b) k = enumerate a k ++ enumerate b (k + Z.of_nat (length a)).
Proof.
  revert k; induction a as [|x a IH]; intros k; simpl.
  - f_equal. lia.
  - rewrite IH. do 3 f_equal. lia.
Qed.

Lemma for_each_app {A} (a b : list A) (body : A -> M unit) (st : state) :
  for_each (a ++ b) body st = (for_each a body ;; for_each b body) st.
Proof.
  revert st; induction a as [|x a IH]; intros st; simpl.
  - reflexivity.
  - unfold bind in *. destruct (body x st) as [[u|e] st1]; [|reflexivity].
    apply IH.
Qed.

(** ** [log_issue] *)

(** The state after [log_issue], field by field. *)
Lemma log_issue_run fp n sev rule msg (st : state) :
  log_issue fp n sev rule msg st =
  (Val tt,
   {| self :=
        {| issues := issues (self st) ++ [render fp n sev rule msg];
           warnings := if str_eqb sev (lit "error")
                       then warnings (self st) else warnings (self st) + 1;
           errors := if str_eqb sev (lit "error")
                     then errors (self st) + 1 else errors (self st) |};
      stdout := stdout st ++ [render fp n sev rule msg] |}).
Proof.
  unfold log_issue, bind, get_self, set_self, print; simpl.
  destruct (str_eqb sev (lit "error")); reflexivity.
Qed.

Lemma log_all_nil (st : state) : log_all [] st = (Val tt, st).
Proof. reflexivity. Qed.

Lemma log_all_cons x l (st : state) :
  log_all (x :: l) st = log_all l (snd (log x st)).
Proof.
  unfold log_all; simpl. unfold bind, log. rewrite log_issue_run. reflexivity.
Qed.

Lemma log_all_one x (st : state) : log_all [x] st = log x st.
Proof.
  rewrite log_all_cons, log_all_nil. unfold log. rewrite log_issue_run.
  reflexivity.
Qed.

Lemma log_all_val l : forall st, fst (log_all l st) = Val tt.
Proof.
  induction l as [|x l IH]; intros st.
  - reflexivity.
  - rewrite log_all_cons. apply IH.
Qed.

Lemma log_all_app a b (st : state) :
  log_all (a ++ b) st = log_all b (snd (log_all a st)).
Proof.
  revert st; induction a as [|x a IH]; intros st; simpl.
  - reflexivity.
  - rewrite !log_all_cons. apply IH.
Qed.

Lemma log_all_eta l (st : state) :
  log_all l st = (Val tt, snd (log_all l st)).
Proof.
  rewrite <- (log_all_val l st). destruct (log_all l st); reflexivity.
Qed.

Lemma cond_log (c : bool) (x : Issue) (st : state) :
  (if c then log x else ret tt) st = log_all (if c then [x] else []) st.
Proof. destruct c; [rewrite log_all_one|]; reflexivity. Qed.

Lemma log_fields x (st : state) :
  issues (self (snd (log x st))) = issues (self st) ++ [render_issue x]
  /\ warnings (self (snd (log x st)))
     = warnings (self st) + (if has_severity "error" x then 0 else 1)
  /\ errors (self (snd (log x st)))
     = errors (self st) + (if has_severity "error" x then 1 else 0).
Proof.
  unfold log. rewrite log_issue_run. cbn [snd self issues warnings errors].
  unfold has_severity, render_issue.
  destruct (str_eqb (issue_severity x) (lit "error")); repeat split; lia.
Qed.

Lemma count_severity_cons sev x l :
  count_severity sev (x :: l)
  = (if has_severity sev x then 1 else 0) + count_severity sev l.
Proof.
  unfold count_severity. cbn [filter].
  destruct (has_severity sev x); cbn [length]; lia.
Qed.

(** A loop whose body only logs, logs the concatenation. *)
Lemma for_each_log {A} (f : A -> list Issue) (body : A -> M unit) :
  (forall x st, body x st = log_all (f x) st) ->
  forall l st, for_each l body st = log_all (flat_map f l) st.
Proof.
  intros Hb. induction l as [|x l IH]; intros st; simpl.
  - reflexivity.
  - unfold bind. rewrite Hb, log_all_app.
    rewrite (log_all_eta (f x) st) at 1. apply IH.
Qed.

(** ** The evaluators as pure reports *)

Section Evaluators.
Variable ua : char -> bool.
Variable fp : str.

Lemma line_length_body_log x st :
  line_length_body fp x st
  = log_all (if 120 <? len (rstrip (snd x))
             then [warning fp (fst x) "line_length"
                     (lit "Line should be 120 characters or less: currently "
                      ++ str_of_int (len (rstrip (snd x)))
                      ++ lit " characters")]
             else []) st.
Proof.
  destruct x as [i line]. rewrite <- cond_log. reflexivity.
Qed.

Lemma getitem_0 {A} (x : A) (rest : list A) (st : state) :
  getitem (x :: rest) 0 st = (Val x, st).
Proof.
  unfold getitem. simpl length.
  replace (0 <? 0) with false by reflexivity. cbv zeta.
  replace (0 <? 0) with false by reflexivity.
  replace (Z.of_nat (S (length rest)) <=? 0) with false
    by (symmetry; apply Z.leb_gt; lia).
  reflexivity.
Qed.

(** Taking the first piece of [split] never fails. *)
Lemma code_part_run line st :
  (if contains (lit "//") line
   then getitem (split (lit "//") line) 0
   else ret line) st = (Val (code_part line), st).
Proof.
  unfold code_part. destruct (contains (lit "//") line); [|reflexivity].
  unfold split.
  destruct (split_go_cons (lit "//") 0 [] line) as (x & rest & ->).
  apply getitem_0.
Qed.

Lemma force_unwrapping_body_log x st :
  force_unwrapping_body ua fp x st
  = log_all (if re_search ua force_unwrap_re (code_part (snd x))
             then [warning fp (fst x) "force_unwrapping" force_unwrapping_msg]
             else []) st.
Proof.
  destruct x as [i line]. unfold force_unwrapping_body, bind.
  rewrite code_part_run. rewrite <- cond_log. reflexivity.
Qed.

Lemma try_force_body_log x st :
  try_force_body fp x st
  = log_all (if contains (lit "try!") (snd x)
                && negb (startswith (lit "//") (strip (snd x)))
             then [warning fp (fst x) "try_force"
                     (lit "Avoid try! - use proper error handling with do-catch or try?")]
             else []) st.
Proof.
  destruct x as [i line]. rewrite <- cond_log. reflexivity.
Qed.

Lemma todo_format_body_log x st :
  todo_format_body ua fp x st
  = log_all (if contains (lit "// TODO") (snd x)
                && negb (re_search ua todo_re (snd x))
             then [warning fp (fst x) "todo_format" todo_format_msg]
             else []) st.
Proof.
  destruct x as [i line]. rewrite <- cond_log. reflexivity.
Qed.

Lemma naming_conventions_body_log x st :
  naming_conventions_body ua fp x st
  = log_all ((if re_search ua variable_re (snd x)
              then [warning fp (fst x) "variable_name" variable_name_msg]
              else [])
             ++ (if re_search ua type_re (snd x)
                 then [warning fp (fst x) "type_name" type_name_msg]
                 else [])) st.
Proof.
  destruct x as [i line]. unfold naming_conventions_body, bind.
  change (fst (i, line)) with i. change (snd (i, line)) with line.
  rewrite log_all_app.
  rewrite <- (cond_log (re_search ua variable_re line)
                (warning fp i "variable_name" variable_name_msg) st).
  rewrite <- cond_log.
  destruct (re_search ua variable_re line).
  - unfold log at 2. cbn [issue_file issue_line issue_severity issue_rule
                         issue_message warning].
    rewrite log_issue_run. reflexivity.
  - reflexivity.
Qed.

Lemma fl_body_run loc x st :
  fl_body ua fp loc x st
  = (Val (fl_next ua loc x), snd (log_all (fl_report ua fp loc x) st)).
Proof.
  destruct x as [i line]. unfold fl_body, fl_next, fl_report, is_func_decl.
  destruct (re_match ua func_re (strip line)); cbn [negb andb].
  - destruct (contains (lit "{") line); reflexivity.
  - destruct (in_function loc); cbn [andb]; [|reflexivity].
    cbn [brace_count function_start in_function].
    destruct (brace_count loc + brace_delta line <=? 0); cbn [andb negb];
      [|reflexivity].
    unfold bind.
    destruct (60 <? i - function_start loc + 1).
    + rewrite log_issue_run, log_all_one. unfold log.
      cbn [issue_file issue_line issue_severity issue_rule issue_message
           warning].
      rewrite log_issue_run. reflexivity.
    + reflexivity.
Qed.

Lemma fl_loop_run lines : forall loc st,
  fl_loop ua fp lines loc st
  = (Val (fl_locals_after ua lines loc),
     snd (log_all (fl_reports ua fp lines loc) st)).
Proof.
  unfold fl_loop, fl_locals_after.
  induction lines as [|x lines IH]; intros loc st; simpl.
  - reflexivity.
  - unfold bind. rewrite fl_body_run, IH, log_all_app. reflexivity.
Qed.

(** Each evaluator amounts to a sequence of calls of [log_issue]. *)
Lemma check_line_length_log lines st :
  check_line_length fp lines st
  = log_all (flat_map (fun x =>
       if 120 <? len (rstrip (snd x))
       then [warning fp (fst x) "line_length"
               (lit "Line should be 120 characters or less: currently "
                ++ str_of_int (len (rstrip (snd x)))
                ++ lit " characters")]
       else []) (enumerate lines 1)) st.
Proof. apply for_each_log. apply line_length_body_log. Qed.

Lemma check_force_unwrapping_log lines st :
  check_force_unwrapping ua fp lines st
  = log_all (flat_map (fun x =>
       if re_search ua force_unwrap_re (code_part (snd x))
       then [warning fp (fst x) "force_unwrapping" force_unwrapping_msg]
       else []) (enumerate lines 1)) st.
Proof. apply for_each_log. apply force_unwrapping_body_log. Qed.

Lemma check_try_force_log lines st :
  check_try_force fp lines st
  = log_all (flat_map (fun x =>
       if contains (lit "try!") (snd x)
          && negb (startswith (lit "//") (strip (snd x)))
       then [warning fp (fst x) "try_force"
               (lit "Avoid try! - use proper error handling with do-catch or try?")]
       else []) (enumerate lines 1)) st.
Proof. apply for_each_log. apply try_force_body_log. Qed.

Lemma check_function_length_log lines st :
  check_function_length ua fp lines st
  = log_all (fl_reports ua fp (enumerate lines 1) fl_init) st.
Proof.
  unfold check_function_length, bind. rewrite fl_loop_run.
  unfold ret. symmetry. apply log_all_eta.
Qed.

Lemma check_todo_format_log lines st :
  check_todo_format ua fp lines st
  = log_all (flat_map (fun x =>
       if contains (lit "// TODO") (snd x)
          && negb (re_search ua todo_re (snd x))
       then [warning fp (fst x) "todo_format" todo_format_msg]
       else []) (enumerate lines 1)) st.
Proof. apply for_each_log. apply todo_format_body_log. Qed.

Lemma check_naming_conventions_log lines st :
  check_naming_conventions ua fp lines st
  = log_all (flat_map (fun x =>
       (if re_search ua variable_re (snd x)
        then [warning fp (fst x) "variable_name" variable_name_msg]
        else [])
       ++ (if re_search ua type_re (snd x)
           then [warning fp (fst x) "type_name" type_name_msg]
           else [])) (enumerate lines 1)) st.
Proof. apply for_each_log. apply naming_conventions_body_log. Qed.

End Evaluators.

(** ** The error counter during a scan *)

Lemma log_all_warnings l :
  Forall is_warning l -> only_warns (log_all l).
Proof.
  induction 1 as [|x l Hx Hl IH]; intros st.
  - exists st. split; reflexivity.
  - rewrite log_all_cons. destruct (IH (snd (log x st))) as (st' & E & He).
    exists st'. split; [exact E|]. rewrite He.
    unfold log. rewrite log_issue_run. red in Hx. rewrite Hx. reflexivity.
Qed.

Lemma only_warns_ext (c c' : M unit) :
  (forall st, c st = c' st) -> only_warns c' -> only_warns c.
Proof. intros E H st. rewrite E. apply H. Qed.

Lemma only_warns_bind (c k : M unit) :
  only_warns c -> only_warns k -> only_warns (c ;; k).
Proof.
  intros Hc Hk st. destruct (Hc st) as (st1 & E1 & H1).
  destruct (Hk st1) as (st2 & E2 & H2).
  exists st2. unfold bind. rewrite E1. split; [exact E2 | congruence].
Qed.

Lemma only_warns_print s : only_warns (print s).
Proof. intros st. eexists. split; reflexivity. Qed.

Lemma Forall_cond_warning (c : bool) fp i rule msg :
  Forall is_warning (if c then [warning fp i rule msg] else []).
Proof. destruct c; repeat constructor. Qed.

Lemma fl_reports_warnings ua fp lines : forall loc,
  Forall is_warning (fl_reports ua fp lines loc).
Proof.
  induction lines as [|[i line] lines IH]; intros loc; simpl.
  - constructor.
  - apply Forall_app. split; [|apply IH].
    apply Forall_cond_warning.
Qed.

Section Scan.
Variable ua : char -> bool.
Variable glob : str -> list str.
Variable open_readlines : str -> res (list str).

Lemma check_line_length_warns fp lines :
  only_warns (check_line_length fp lines).
Proof.
  eapply only_warns_ext; [apply check_line_length_log|].
  apply log_all_warnings, Forall_flat_map, Forall_forall.
  intros x _. apply Forall_cond_warning.
Qed.

Lemma check_force_unwrapping_warns fp lines :
  only_warns (check_force_unwrapping ua fp lines).
Proof.
  eapply only_warns_ext; [apply check_force_unwrapping_log|].
  apply log_all_warnings, Forall_flat_map, Forall_forall.
  intros x _. apply Forall_cond_warning.
Qed.

Lemma check_try_force_warns fp lines :
  only_warns (check_try_force fp lines).
Proof.
  eapply only_warns_ext; [apply check_try_force_log|].
  apply log_all_warnings, Forall_flat_map, Forall_forall.
  intros x _. apply Forall_cond_warning.
Qed.

Lemma check_function_length_warns fp lines :
  only_warns (check_function_length ua fp lines).
Proof.
  eapply only_warns_ext; [apply check_function_length_log|].
  apply log_all_warnings, fl_reports_warnings.
Qed.

Lemma check_todo_format_warns fp lines :
  only_warns (check_todo_format ua fp lines).
Proof.
  eapply only_warns_ext; [apply check_todo_format_log|].
  apply log_all_warnings, Forall_flat_map, Forall_forall.
  intros x _. apply Forall_cond_warning.
Qed.

Lemma check_naming_conventions_warns fp lines :
  only_warns (check_naming_conventions ua fp lines).
Proof.
  eapply only_warns_ext; [apply check_naming_conventions_log|].
  apply log_all_warnings, Forall_flat_map, Forall_forall.
  intros x _. apply Forall_app. split; apply Forall_cond_warning.
Qed.

(** [check_file] either completes, or lets through an exception raised by
    the read that is not an [Exception]; the error counter is untouched. *)
Lemma check_file_run fp st :
  exists r st',
    check_file ua open_readlines fp st = (r, st')
    /\ errors (self st') = errors (self st)
    /\ (r = Val tt
        \/ exists e, r = Raise e /\ is_Exception e = false
                     /\ open_readlines fp = Raise e /\ st' = st).
Proof.
  unfold check_file, try_except_Exception.
  unfold bind at 1.
  destruct (open_readlines fp) as [lines|e] eqn:Hr.
  - assert (H : only_warns
                  (print (lit "Linting " ++ fp) ;;
                   check_line_length fp lines ;;
                   check_force_unwrapping ua fp lines ;;
                   check_try_force fp lines ;;
                   check_function_length ua fp lines ;;
                   check_todo_format ua fp lines ;;
                   check_naming_conventions ua fp lines)).
    { repeat apply only_warns_bind;
        auto using only_warns_print, check_line_length_warns,
          check_force_unwrapping_warns, check_try_force_warns,
          check_function_length_warns, check_todo_format_warns,
          check_naming_conventions_warns. }
    destruct (H st) as (st' & E & He). rewrite E.
    exists (Val tt), st'. auto.
  - destruct (is_Exception e) eqn:He.
    + eexists _, _. split; [reflexivity|]. split; [reflexivity | left; reflexivity].
    + exists (Raise e), st. split; [reflexivity|]. split; [reflexivity|].
      right. exists e. auto.
Qed.

Lemma for_each_check_file_run files : forall st,
  exists r st',
    for_each files (check_file ua open_readlines) st = (r, st')
    /\ errors (self st') = errors (self st)
    /\ (r = Val tt
        \/ exists e, r = Raise e /\ is_Exception e = false
                     /\ exists f, In f files /\ open_readlines f = Raise e).
Proof.
  induction files as [|f files IH]; intros st; simpl.
  - exists (Val tt), st. auto.
  - unfold bind.
    destruct (check_file_run f st) as (r & st1 & E & He & Hr). rewrite E.
    destruct Hr as [-> | (e & -> & Hn & Hrd & _)].
    + destruct (IH st1) as (r2 & st2 & E2 & He2 & Hr2).
      exists r2, st2. split; [exact E2|]. split; [congruence|].
      destruct Hr2 as [-> | (e & -> & Hn & g & Hg & Hrd)]; [left; reflexivity|].
      right. exists e. repeat split; auto. exists g. auto.
    + exists (Raise e), st1. split; [reflexivity|]. split; [exact He|].
      right. exists e. repeat split; auto. exists f. auto.
Qed.

Lemma check_directory_run directory st :
  exists r st',
    check_directory ua glob open_readlines directory st = (r, st')
    /\ errors (self st') = errors (self st)
    /\ (r = Val tt
        \/ exists e, r = Raise e /\ is_Exception e = false
                     /\ exists f, open_readlines f = Raise e).
Proof.
  unfold check_directory.
  destruct (glob (path_join directory (lit "**/*.swift"))) as [|f files].
  - eexists _, _. split; [reflexivity|]. auto.
  - unfold bind at 1. cbn [print].
    match goal with
    | |- context [for_each ?l ?b ?s] =>
        destruct (for_each_check_file_run l s) as (r & st' & E & He & Hr)
    end.
    exists r, st'. split; [exact E|]. split; [exact He|].
    destruct Hr as [-> | (e & -> & Hn & g & _ & Hrd)]; [left; reflexivity|].
    right. exists e. repeat split; auto. exists g. exact Hrd.
Qed.

(** [summary] reads the counters and changes none of them. *)
Lemma summary_run st :
  fst (summary st) = Val (0 <? errors (self st))
  /\ self (snd (summary st)) = self st.
Proof.
  unfold summary, bind, get_self, ret.
  destruct ((warnings (self st) =? 0) && (errors (self st) =? 0));
    split; reflexivity.
Qed.

End Scan.

End CheckerFacts.

(* ===================================================================== *)
(** * The verdict, the issue log, and totality of the evaluators          *)
(* ===================================================================== *)

Module Verdict.
Import Py Re Checker Samples PyFacts ReFacts CheckerFacts.
Local Open Scope py_scope.

(** With a command line naming a directory, [main] reaches the scan from
    the start state without printing anything. *)
Lemma main_valid ua argv isdir glob rd directory :
  nth_error argv 1 = Some directory ->
  isdir directory = true ->
  main ua argv isdir glob rd start
  = (check_directory ua glob rd directory ;;
     has_errors <- summary ;;
     sys_exit (if has_errors : bool then 1 else 0)) start.
Proof.
  intros Hd Hi. unfold main.
  assert (Hlen : (1 < length argv)%nat)
    by (apply nth_error_Some; congruence).
  replace (Z.of_nat (length argv) <? 2) with false
    by (symmetry; apply Z.ltb_ge; lia).
  unfold bind at 1. unfold getitem.
  replace (1 <? 0) with false by reflexivity. cbv zeta.
  replace (1 <? 0) with false by reflexivity.
  replace (Z.of_nat (length argv) <=? 1) with false
    by (symmetry; apply Z.leb_gt; lia).
  cbn [orb]. change (Z.to_nat 1) with 1%nat. rewrite Hd. unfold ret.
  rewrite Hi. cbn [negb]. reflexivity.
Qed.

(** C1.  For a run whose command line names a directory and whose scan
    runs to completion: [summary] returns true exactly when the error
    counter is greater than zero, whatever the warning counter is; the
    process exits with code 1 when the verdict is true and with code 0
    otherwise; and the exit code is 0 exactly when the error counter is
    zero.  The first part is stated for every state of the checker. *)
Theorem verdict_iff_errors ua argv isdir glob rd directory :
  nth_error argv 1 = Some directory ->
  isdir directory = true ->
  fst (check_directory ua glob rd directory start) = Val tt ->
  let scanned := snd (check_directory ua glob rd directory start) in
  let result := run_process ua argv isdir glob rd in
  (forall st, exists verdict,
      fst (summary st) = Val verdict
      /\ self (snd (summary st)) = self st
      /\ (verdict = true <-> 0 < errors (self st)))
  /\ (forall issues_ w out,
         fst (summary (mkState (mkChecker issues_ w 0) out)) = Val false)
  /\ fst result = Exited (if 0 <? errors (self scanned) then 1 else 0)
  /\ self (snd result) = self scanned
  /\ (fst result = Exited 0 <-> errors (self scanned) = 0).
Proof.
  intros Hd Hi Hscan scanned result.
  assert (Hsum : forall st, exists verdict,
             fst (summary st) = Val verdict
             /\ self (snd (summary st)) = self st
             /\ (verdict = true <-> 0 < errors (self st))).
  { intros st. destruct (summary_run st) as [E1 E2].
    exists (0 <? errors (self st)). repeat split; auto.
    - apply Z.ltb_lt.
    - apply Z.ltb_lt. }
  split; [exact Hsum|].
  split.
  { intros i w out. destruct (summary_run (mkState (mkChecker i w 0) out)) as [E _].
    exact E. }
  assert (Hrun : result = (Exited (if 0 <? errors (self scanned) then 1 else 0),
                           snd (summary scanned))).
  { subst result. unfold run_process.
    rewrite (@main_valid ua argv isdir glob rd directory Hd Hi).
    unfold bind at 1. fold scanned in Hscan |- *.
    destruct (check_directory ua glob rd directory start) as [r st1] eqn:E.
    subst scanned. simpl in Hscan |- *. subst r.
    unfold bind. destruct (summary_run st1) as [E1 _].
    destruct (summary st1) as [v st2]. simpl in E1. subst v.
    unfold sys_exit, raise. reflexivity. }
  rewrite Hrun. cbn [fst snd].
  destruct (summary_run scanned) as [_ E2].
  split; [reflexivity|]. split; [exact E2|].
  destruct (check_directory_run ua glob rd directory start)
    as (r & st' & E & He & _).
  assert (H0 : errors (self scanned) = 0).
  { subst scanned. rewrite E. simpl. rewrite He. reflexivity. }
  rewrite H0. simpl. split; auto.
Qed.

Lemma verdict_iff_errors_witness :
  fst (run_process ascii_only demo_argv demo_isdir demo_glob demo_read)
  = Exited 0.
Proof.
  pose proof (@verdict_iff_errors ascii_only demo_argv demo_isdir
                demo_glob demo_read (lit "src") eq_refl eq_refl eq_refl) as H.
  cbv zeta in H. destruct H as (_ & _ & _ & _ & H).
  apply H. vm_compute. reflexivity.
Defined.

(** C7.  After any sequence of calls of [log_issue] whose severities are
    [warning] or [error], started in any state: the calls completed
    normally; the issue sequence is the old one followed by the texts of
    the new issues, in order, so nothing was removed or changed; and each
    counter grew by the number of new issues of its severity.  From the
    state a checker is created in, the counters are therefore the numbers
    of issues of each severity in the sequence. *)
Theorem counters_match_log (calls : list Issue) (st : state) :
  Forall (fun x => issue_severity x = lit "warning"
                   \/ issue_severity x = lit "error") calls ->
  let st' := snd (log_all calls st) in
  fst (log_all calls st) = Val tt
  /\ issues (self st') = issues (self st) ++ map render_issue calls
  /\ warnings (self st') = warnings (self st) + count_severity "warning" calls
  /\ errors (self st') = errors (self st) + count_severity "error" calls
  /\ (self st = init ->
      issues (self st') = map render_issue calls
      /\ warnings (self st') = count_severity "warning" calls
      /\ errors (self st') = count_severity "error" calls).
Proof.
  intros Hsev. cbv zeta.
  assert (H : issues (self (snd (log_all calls st)))
              = issues (self st) ++ map render_issue calls
              /\ warnings (self (snd (log_all calls st)))
                 = warnings (self st) + count_severity "warning" calls
              /\ errors (self (snd (log_all calls st)))
                 = errors (self st) + count_severity "error" calls).
  { revert st. induction Hsev as [|x calls Hx Hl IH]; intros st.
    - rewrite log_all_nil. cbn [snd map]. rewrite app_nil_r.
      change (count_severity "warning" []) with 0.
      change (count_severity "error" []) with 0.
      repeat split; lia.
    - rewrite log_all_cons.
      destruct (IH (snd (log x st))) as (I1 & I2 & I3).
      rewrite I1, I2, I3. clear IH I1 I2 I3.
      destruct (log_fields x st) as (F1 & F2 & F3).
      rewrite F1, F2, F3, !count_severity_cons.
      rewrite <- app_assoc. cbn [app map].
      assert (Hw : has_severity "warning" x = negb (has_severity "error" x)).
      { unfold has_severity. destruct Hx as [-> | ->]; reflexivity. }
      rewrite Hw. destruct (has_severity "error" x); cbn [negb];
        repeat split; lia. }
  destruct H as (H1 & H2 & H3).
  split; [apply log_all_val|].
  repeat split; auto.
  - rewrite H1, H. reflexivity.
  - rewrite H2, H. simpl. lia.
  - rewrite H3, H. simpl. lia.
Qed.

Lemma counters_match_log_witness :
  warnings (self (snd (log_all demo_calls start))) = 2
  /\ errors (self (snd (log_all demo_calls start))) = 1.
Proof.
  assert (Hsev : Forall (fun x => issue_severity x = lit "warning"
                                  \/ issue_severity x = lit "error")
                        demo_calls).
  { constructor; [left; reflexivity|].
    constructor; [right; reflexivity|].
    constructor; [left; reflexivity|]. constructor. }
  destruct (@counters_match_log demo_calls start Hsev)
    as (_ & _ & _ & _ & H).
  destruct (H eq_refl) as (_ & Hw & He).
  split; [rewrite Hw | rewrite He]; reflexivity.
Defined.

(** C6.  On every path and every list of lines, each of the six evaluators
    completes normally: it raises no exception, and what it does amounts
    to zero or more calls of [log_issue].  The only operation of the
    evaluators that can raise is the indexing of the result of [split] in
    [check_force_unwrapping], and [split] never returns an empty list. *)
Theorem evaluators_never_raise ua (file_path : str) (lines : list str)
        (st : state) :
  (exists l, check_line_length file_path lines st
             = (Val tt, snd (log_all l st)))
  /\ (exists l, check_force_unwrapping ua file_path lines st
                = (Val tt, snd (log_all l st)))
  /\ (exists l, check_try_force file_path lines st
                = (Val tt, snd (log_all l st)))
  /\ (exists l, check_function_length ua file_path lines st
                = (Val tt, snd (log_all l st)))
  /\ (exists l, check_todo_format ua file_path lines st
                = (Val tt, snd (log_all l st)))
  /\ (exists l, check_naming_conventions ua file_path lines st
                = (Val tt, snd (log_all l st))).
Proof.
  repeat split; eexists.
  - rewrite check_line_length_log. apply log_all_eta.
  - rewrite check_force_unwrapping_log. apply log_all_eta.
  - rewrite check_try_force_log. apply log_all_eta.
  - rewrite check_function_length_log. apply log_all_eta.
  - rewrite check_todo_format_log. apply log_all_eta.
  - rewrite check_naming_conventions_log. apply log_all_eta.
Qed.

End Verdict.

(* ===================================================================== *)
(** * The function-body-length rule                                       *)
(* ===================================================================== *)

Module FunctionLength.
Import Py Re Checker Samples PyFacts ReFacts CheckerFacts.
Local Open Scope py_scope.

Section Spans.
Variable ua : char -> bool.
Variable fp : str.

Lemma fl_locals_after_app a b loc :
  fl_locals_after ua (a ++ b) loc
  = fl_locals_after ua b (fl_locals_after ua a loc).
Proof. apply fold_left_app. Qed.

Lemma fl_reports_app a : forall b loc,
  fl_reports ua fp (a ++ b) loc
  = fl_reports ua fp a loc ++ fl_reports ua fp b (fl_locals_after ua a loc).
Proof.
  induction a as [|x a IH]; intros b loc; simpl.
  - reflexivity.
  - rewrite IH, app_assoc. reflexivity.
Qed.

(** A line that opens a span sets the three locals and reports nothing,
    whatever the locals were. *)
Lemma fl_opens loc i line :
  opens_span ua line = true ->
  fl_next ua loc (i, line) = mkLocals true i (brace_delta line)
  /\ fl_report ua fp loc (i, line) = [].
Proof.
  unfold opens_span. intros H. apply andb_true_iff in H as [Hd Hb].
  unfold fl_next, fl_report. rewrite Hd, Hb. auto.
Qed.

(** No issue is reported on the first sixty lines of a file. *)
Lemma fl_early_quiet lines : forall k loc,
  1 <= k -> k + Z.of_nat (length lines) <= 61 ->
  (in_function loc = true -> 1 <= function_start loc) ->
  fl_reports ua fp (enumerate lines k) loc = [].
Proof.
  induction lines as [|line lines IH]; intros k loc Hk Hlen Hinv.
  - reflexivity.
  - cbn [enumerate fl_reports]. cbn [length] in Hlen.
    rewrite IH; try lia.
    + rewrite app_nil_r. unfold fl_report.
      destruct (is_func_decl ua line); [reflexivity|].
      destruct (in_function loc) eqn:Hin; [|reflexivity].
      specialize (Hinv eq_refl).
      replace (60 <? k - function_start loc + 1) with false
        by (symmetry; apply Z.ltb_ge; lia).
      rewrite andb_false_r. reflexivity.
    + unfold fl_next.
      destruct (is_func_decl ua line).
      * destruct (contains (lit "{") line); cbn [in_function function_start];
          [lia | exact Hinv].
      * destruct (in_function loc) eqn:Hin; [|rewrite Hin; discriminate].
        cbn [in_function function_start]. intros _. apply Hinv. reflexivity.
Qed.

(** Inside a span, lines that are no declarations and keep the depth
    positive are counted and report nothing. *)
Lemma fl_inside body : forall k start d,
  Forall (fun l => is_func_decl ua l = false) body ->
  (forall j, (1 <= j <= length body)%nat ->
             0 < fold_left (fun d l => d + brace_delta l) (firstn j body) d) ->
  fl_reports ua fp (enumerate body k) (mkLocals true start d) = []
  /\ fl_locals_after ua (enumerate body k) (mkLocals true start d)
     = mkLocals true start (fold_left (fun d l => d + brace_delta l) body d).
Proof.
  induction body as [|line body IH]; intros k start d Hnd Hpos.
  - split; reflexivity.
  - inversion Hnd as [|? ? Hl Hb]; subst.
    assert (H1 : 0 < d + brace_delta line).
    { apply (Hpos 1%nat). cbn [length]. lia. }
    assert (Hn : fl_next ua (mkLocals true start d) (k, line)
                 = mkLocals true start (d + brace_delta line)).
    { unfold fl_next. rewrite Hl. cbn [in_function brace_count function_start].
      replace (d + brace_delta line <=? 0) with false
        by (symmetry; apply Z.leb_gt; lia).
      reflexivity. }
    assert (Hr : fl_report ua fp (mkLocals true start d) (k, line) = []).
    { unfold fl_report. rewrite Hl.
      cbn [in_function brace_count function_start negb andb].
      replace (d + brace_delta line <=? 0) with false
        by (symmetry; apply Z.leb_gt; lia).
      reflexivity. }
    unfold fl_locals_after in *.
    cbn [enumerate fl_reports fold_left]. rewrite Hn, Hr.
    apply IH; [exact Hb|].
    intros j Hj. apply (Hpos (S j)). cbn [length]. lia.
Qed.

(** The line on which the depth falls to zero or below ends the span and
    reports its length when it exceeds sixty. *)
Lemma fl_closes start d i line :
  is_func_decl ua line = false ->
  d + brace_delta line <= 0 ->
  fl_next ua (mkLocals true start d) (i, line)
  = mkLocals false start (d + brace_delta line)
  /\ fl_report ua fp (mkLocals true start d) (i, line)
     = if 60 <? i - start + 1
       then [warning fp start "function_body_length"
               (function_length_msg (i - start + 1))]
       else [].
Proof.
  intros Hl Hd. unfold fl_next, fl_report. rewrite Hl.
  cbn [in_function brace_count function_start negb andb].
  replace (d + brace_delta line <=? 0) with true
    by (symmetry; apply Z.leb_le; lia).
  auto.
Qed.

(** Outside a span, lines that open none change nothing. *)
Lemma fl_outside_quiet post : forall k loc,
  in_function loc = false ->
  Forall (fun l => opens_span ua l = false) post ->
  fl_reports ua fp (enumerate post k) loc = [].
Proof.
  induction post as [|line post IH]; intros k loc Hin Hno.
  - reflexivity.
  - inversion Hno as [|? ? Hl Hp]; subst.
    cbn [enumerate fl_reports].
    assert (Hn : fl_next ua loc (k, line) = loc).
    { unfold fl_next. unfold opens_span in Hl.
      destruct (is_func_decl ua line); [|rewrite Hin; reflexivity].
      cbn [andb] in Hl. rewrite Hl. reflexivity. }
    assert (Hr : fl_report ua fp loc (k, line) = []).
    { unfold fl_report. rewrite Hin, andb_false_r. reflexivity. }
    rewrite Hn, Hr. apply IH; assumption.
Qed.

Lemma depth_after_snoc decl body closing :
  depth_after decl (body ++ [closing])
  = depth_after decl body + brace_delta closing.
Proof. unfold depth_after. rewrite fold_left_app. reflexivity. Qed.

(** The report for a file made of: at most 59 lines, a line that opens a
    span, body lines that keep the span open, the line that closes it, and
    lines that open no span. *)
Lemma span_report pre decl body closing post :
  (length pre <= 59)%nat ->
  opens_span ua decl = true ->
  Forall (fun l => is_func_decl ua l = false) (body ++ [closing]) ->
  (forall j, (1 <= j <= length body)%nat ->
             0 < depth_after decl (firstn j body)) ->
  depth_after decl (body ++ [closing]) <= 0 ->
  Forall (fun l => opens_span ua l = false) post ->
  fl_reports ua fp (enumerate (pre ++ decl :: body ++ closing :: post) 1)
             fl_init
  = if 60 <? Z.of_nat (length body) + 2
    then [warning fp (Z.of_nat (length pre) + 1) "function_body_length"
            (function_length_msg (Z.of_nat (length body) + 2))]
    else [].
Proof.
  intros Hpre Hopen Hnd Hpos Hclose Hpost.
  apply Forall_app in Hnd as [Hbody Hcl].
  inversion Hcl as [|? ? Hcl' _]; subst.
  rewrite depth_after_snoc in Hclose.
  rewrite enumerate_app, fl_reports_app.
  rewrite fl_early_quiet;
    [| lia | lia | discriminate].
  cbn [app enumerate fl_reports].
  set (start := 1 + Z.of_nat (length pre)).
  destruct (@fl_opens (fl_locals_after ua (enumerate pre 1) fl_init)
              start decl Hopen) as [Hn Hr].
  rewrite Hn, Hr. cbn [app].
  rewrite enumerate_app, fl_reports_app.
  destruct (@fl_inside body (start + 1) start (brace_delta decl) Hbody Hpos)
    as [Hr2 Hn2].
  rewrite Hr2, Hn2. cbn [app enumerate fl_reports].
  fold (depth_after decl body).
  destruct (@fl_closes start (depth_after decl body)
              (start + 1 + Z.of_nat (length body)) closing Hcl' Hclose)
    as [Hn3 Hr3].
  rewrite Hn3, Hr3.
  rewrite fl_outside_quiet; [|reflexivity | exact Hpost].
  rewrite app_nil_r.
  replace (start + 1 + Z.of_nat (length body) - start + 1)
    with (Z.of_nat (length body) + 2) by lia.
  replace start with (Z.of_nat (length pre) + 1) by (unfold start; lia).
  reflexivity.
Qed.

(** An open span is always that of the last line that opened one. *)
Lemma open_span_is_last_opening lines :
  in_function (fl_locals_after ua lines fl_init) = true ->
  last_opening ua lines
  = Some (function_start (fl_locals_after ua lines fl_init)).
Proof.
  induction lines as [|[i line] lines IH] using rev_ind.
  - discriminate.
  - unfold last_opening. rewrite fl_locals_after_app, fold_left_app.
    fold (last_opening ua lines).
    cbn [fl_locals_after fold_left fst snd].
    set (loc := fl_locals_after ua lines fl_init) in *.
    destruct (opens_span ua line) eqn:Ho.
    + destruct (@fl_opens loc i line Ho) as [-> _]. reflexivity.
    + unfold fl_next. unfold opens_span in Ho.
      destruct (is_func_decl ua line).
      * cbn [andb] in Ho. rewrite Ho. exact IH.
      * destruct (in_function loc) eqn:Hin.
        -- cbn [in_function function_start]. intros _. apply IH. reflexivity.
        -- rewrite Hin. discriminate.
Qed.

End Spans.

(** Hypotheses over all the lines of a sample are settled by evaluation. *)
Lemma Forall_false_by_eval {A} (f : A -> bool) (l : list A) :
  forallb (fun x => negb (f x)) l = true ->
  Forall (fun x => f x = false) l.
Proof.
  intros H. apply Forall_forall. intros x Hx.
  rewrite forallb_forall in H. apply negb_true_iff. auto.
Qed.

Lemma depth_positive_by_eval decl body :
  forallb (fun j => 0 <? depth_after decl (firstn j body))
          (seq 1 (length body)) = true ->
  forall j, (1 <= j <= length body)%nat ->
            0 < depth_after decl (firstn j body).
Proof.
  intros H j Hj. rewrite forallb_forall in H.
  apply Z.ltb_lt, H, in_seq. lia.
Qed.

(** C2.  Let line 10 of a file be a function declaration holding an
    opening brace, let none of the lines 11 and following up to the closing
    line have the shape of a declaration, let the brace depth counted from
    line 10 be positive after each line before the closing line and zero
    or below after the closing line, and let no later line open a span.
    When the closing line is line 75, [check_function_length] makes exactly
    one call of [log_issue]: a warning with rule [function_body_length] on
    line 10 reporting 66 lines (75 - 10 + 1).  When the closing line is
    line 69, the length is 60 and nothing is logged.  The nine lines before
    line 10 are arbitrary. *)
Theorem function_length_from_line_10 ua fp pre decl body closing post st :
  length pre = 9%nat ->
  opens_span ua decl = true ->
  Forall (fun l => is_func_decl ua l = false) (body ++ [closing]) ->
  (forall j, (1 <= j <= length body)%nat ->
             0 < depth_after decl (firstn j body)) ->
  depth_after decl (body ++ [closing]) <= 0 ->
  Forall (fun l => opens_span ua l = false) post ->
  let file := pre ++ decl :: body ++ closing :: post in
  (length body = 64%nat ->
   check_function_length ua fp file st
   = log (warning fp 10 "function_body_length"
            (lit "Function body should be 60 lines or less: currently 66 lines"))
         st)
  /\ (length body = 58%nat ->
      check_function_length ua fp file st = (Val tt, st)).
Proof.
  intros Hpre Hopen Hnd Hpos Hclose Hpost file.
  assert (Hle : (length pre <= 59)%nat) by lia.
  pose proof (@span_report ua fp pre decl body closing post
                Hle Hopen Hnd Hpos Hclose Hpost) as H.
  rewrite Hpre in H. subst file.
  split; intros Hlen; rewrite check_function_length_log, H, Hlen.
  - apply log_all_one.
  - reflexivity.
Qed.

Lemma function_length_from_line_10_witness :
  check_function_length ascii_only (lit "a.swift") (long_function 64) start
  = log (warning (lit "a.swift") 10 "function_body_length"
           (lit "Function body should be 60 lines or less: currently 66 lines"))
        start
  /\ check_function_length ascii_only (lit "a.swift") (long_function 58) start
     = (Val tt, start).
Proof.
  split.
  - refine (proj1 (@function_length_from_line_10 ascii_only (lit "a.swift")
                     (repeat (lit "import Foundation") 9) (lit "func f() {")
                     (repeat (lit "    total += 1") 64) (lit "}") [] start
                     eq_refl _ _ _ _ _) eq_refl).
    + vm_compute. reflexivity.
    + apply Forall_false_by_eval. vm_compute. reflexivity.
    + apply depth_positive_by_eval. vm_compute. reflexivity.
    + vm_compute. discriminate.
    + constructor.
  - refine (proj2 (@function_length_from_line_10 ascii_only (lit "a.swift")
                     (repeat (lit "import Foundation") 9) (lit "func f() {")
                     (repeat (lit "    total += 1") 58) (lit "}") [] start
                     eq_refl _ _ _ _ _) eq_refl).
    + vm_compute. reflexivity.
    + apply Forall_false_by_eval. vm_compute. reflexivity.
    + apply depth_positive_by_eval. vm_compute. reflexivity.
    + vm_compute. discriminate.
    + constructor.
Defined.

(** C9.  A line that opens a span is never tested for closing it: whatever
    the locals were and even when its own braces balance, the loop body
    sets the span open on that line, with the depth of that line, and logs
    nothing.  A later line that is no declaration closes the span as soon
    as the depth is zero or below.  Hence, when such a line is the last
    line of a file, the loop ends with the span open and the rule logs
    exactly what it logs for the lines before it. *)
Theorem span_start_is_not_a_close ua fp decl :
  opens_span ua decl = true ->
  (forall loc i st,
      fl_body ua fp loc (i, decl) st
      = (Val (mkLocals true i (brace_delta decl)), st))
  /\ (forall i next st,
         is_func_decl ua next = false ->
         brace_delta decl + brace_delta next <= 0 ->
         fst (fl_body ua fp (mkLocals true i (brace_delta decl))
                      (i + 1, next) st)
         = Val (mkLocals false i (brace_delta decl + brace_delta next)))
  /\ (forall pre st,
         fl_loop ua fp (enumerate (pre ++ [decl]) 1) fl_init st
         = (Val (mkLocals true (Z.of_nat (length pre) + 1) (brace_delta decl)),
            snd (fl_loop ua fp (enumerate pre 1) fl_init st)))
  /\ (forall pre st,
         check_function_length ua fp (pre ++ [decl]) st
         = check_function_length ua fp pre st).
Proof.
  intros Hopen.
  assert (Hstep : forall loc i st,
             fl_body ua fp loc (i, decl) st
             = (Val (mkLocals true i (brace_delta decl)), st)).
  { intros loc i st. rewrite fl_body_run.
    destruct (@fl_opens ua fp loc i decl Hopen) as [-> ->]. reflexivity. }
  assert (Hrep : forall pre,
             fl_reports ua fp (enumerate (pre ++ [decl]) 1) fl_init
             = fl_reports ua fp (enumerate pre 1) fl_init).
  { intros pre. rewrite enumerate_app, fl_reports_app.
    cbn [enumerate fl_reports].
    destruct (@fl_opens ua fp (fl_locals_after ua (enumerate pre 1) fl_init)
                (1 + Z.of_nat (length pre)) decl Hopen) as [_ ->].
    rewrite !app_nil_r. reflexivity. }
  split; [exact Hstep|]. split; [|split].
  - intros i next st Hn Hd. rewrite fl_body_run.
    destruct (@fl_closes ua fp i (brace_delta decl) (i + 1) next Hn Hd)
      as [-> _].
    reflexivity.
  - intros pre st. rewrite !fl_loop_run, Hrep. cbn [snd]. f_equal.
    rewrite enumerate_app, fl_locals_after_app.
    unfold fl_locals_after at 1. cbn [enumerate fold_left].
    destruct (@fl_opens ua fp (fl_locals_after ua (enumerate pre 1) fl_init)
                (1 + Z.of_nat (length pre)) decl Hopen) as [E _].
    rewrite E. do 2 f_equal. lia.
  - intros pre st. rewrite !check_function_length_log, Hrep. reflexivity.
Qed.

Lemma span_start_is_not_a_close_witness :
  brace_delta (lit "func f() { }") = 0
  /\ fl_loop ascii_only (lit "a.swift") (enumerate [lit "func f() { }"] 1)
             fl_init start
     = (Val (mkLocals true 1 0), start)
  /\ check_function_length ascii_only (lit "a.swift") [lit "func f() { }"]
                           start
     = (Val tt, start).
Proof.
  destruct (@span_start_is_not_a_close ascii_only (lit "a.swift")
              (lit "func f() { }") eq_refl) as (_ & _ & H3 & H4).
  split; [reflexivity|]. split.
  - exact (H3 [] start).
  - exact (H4 [] start).
Defined.

(** C3, as stated, fails.  In [nested_file] the declaration of [inner] on
    line 2 is met while the span of [outer] is open.  The claim has the
    span of [outer] go on (start line 1, depth 2 after line 2) and the
    issue, of 64 lines, attributed to line 1.  The code starts a new span
    on line 2 with depth 1, closes it on line 63 and logs one issue, of 62
    lines, attributed to line 2. *)
Lemma nested_declaration_counterexample :
  fl_locals_after ascii_only
    (enumerate [lit "func outer() {"; lit "  func inner() {"] 1) fl_init
  = mkLocals true 2 1
  /\ check_function_length ascii_only (lit "a.swift") nested_file start
     = log (warning (lit "a.swift") 2 "function_body_length"
              (lit "Function body should be 60 lines or less: currently 62 lines"))
           start
  /\ check_function_length ascii_only (lit "a.swift") nested_file start
     <> log (warning (lit "a.swift") 1 "function_body_length"
               (lit "Function body should be 60 lines or less: currently 64 lines"))
            start.
Proof.
  split; [vm_compute; reflexivity|].
  split; [vm_compute; reflexivity|].
  vm_compute. discriminate.
Qed.

(** C3, amended.  The loop keeps one flag, one start line and one depth,
    so at most one span is open at a time, and an open span is that of the
    last line that opened one.  A declaration line holding an opening
    brace starts a span also while one is open: the open span is dropped
    without a report and the start line and the depth restart from that
    line.  A declaration line without an opening brace leaves the locals
    as they are, its braces uncounted.  Any other line logs nothing or
    logs one issue attributed to the start line of the open span, that is,
    to the most recent line that opened a span. *)
Theorem declaration_restarts_span ua fp pre line st :
  let i := Z.of_nat (length pre) + 1 in
  let loc := fl_locals_after ua (enumerate pre 1) fl_init in
  fst (fl_loop ua fp (enumerate pre 1) fl_init st) = Val loc
  /\ (in_function loc = true ->
      last_opening ua (enumerate pre 1) = Some (function_start loc))
  /\ (opens_span ua line = true ->
      fl_body ua fp loc (i, line) st
      = (Val (mkLocals true i (brace_delta line)), st))
  /\ (is_func_decl ua line = true -> contains (lit "{") line = false ->
      fl_body ua fp loc (i, line) st = (Val loc, st))
  /\ (is_func_decl ua line = false ->
      exists loc' st',
        fl_body ua fp loc (i, line) st = (Val loc', st')
        /\ function_start loc' = function_start loc
        /\ (st' = st
            \/ (in_function loc = true
                /\ st' = snd (log (warning fp (function_start loc)
                                     "function_body_length"
                                     (function_length_msg
                                        (i - function_start loc + 1)))
                                  st)))).
Proof.
  intros i loc. split; [|split; [|split; [|split]]].
  - rewrite fl_loop_run. reflexivity.
  - exact (@open_span_is_last_opening ua fp (enumerate pre 1)).
  - intros Ho. rewrite fl_body_run.
    destruct (@fl_opens ua fp loc i line Ho) as [-> ->]. reflexivity.
  - intros Hd Hb. rewrite fl_body_run. unfold fl_next, fl_report.
    rewrite Hd, Hb. reflexivity.
  - intros Hd. rewrite fl_body_run. eexists _, _. split; [reflexivity|].
    unfold fl_next, fl_report. rewrite Hd. cbn [negb andb].
    destruct (in_function loc) eqn:Hin; cbn [andb].
    + split; [reflexivity|].
      destruct (brace_count loc + brace_delta line <=? 0); cbn [andb];
        [|left; reflexivity].
      destruct (60 <? i - function_start loc + 1); [|left; reflexivity].
      right. split; [reflexivity|]. rewrite log_all_one. reflexivity.
    + split; [reflexivity|]. left. reflexivity.
Qed.

Lemma declaration_restarts_span_witness :
  fl_body ascii_only (lit "a.swift") (mkLocals true 1 1)
          (2, lit "  func inner() {") start
  = (Val (mkLocals true 2 1), start).
Proof.
  destruct (@declaration_restarts_span ascii_only (lit "a.swift")
              [lit "func outer() {"] (lit "  func inner() {") start)
    as (_ & _ & H & _).
  exact (H eq_refl).
Defined.

End FunctionLength.

(* ===================================================================== *)
(** * The forced-unwrap rule                                              *)
(* ===================================================================== *)

Module ForceUnwrap.
Import Py Re Checker Samples PyFacts ReFacts CheckerFacts.
Local Open Scope py_scope.

(** Whitespace is outside both excluded sets, which is why the optional
    whitespace of the pattern adds nothing to what it finds. *)
Lemma space_not_excluded (c : char) :
  isspace c = true -> none_of "!=<>" c = true /\ none_of "=" c = true.
Proof.
  intros H. unfold none_of, one_of. cbn [lit list_ascii_of_string map existsb].
  unfold char_eqb.
  destruct (N.eqb_spec c (N_of_ascii "!")) as [->|_]; [discriminate H|].
  destruct (N.eqb_spec c (N_of_ascii "=")) as [->|_]; [discriminate H|].
  destruct (N.eqb_spec c (N_of_ascii "<")) as [->|_]; [discriminate H|].
  destruct (N.eqb_spec c (N_of_ascii ">")) as [->|_]; [discriminate H|].
  split; reflexivity.
Qed.

Lemma last_case {A} (w : list A) : w = [] \/ exists w0 c, w = w0 ++ [c].
Proof.
  destruct w as [|c w0] using rev_ind; [left; reflexivity|].
  right. eauto.
Qed.

(** The pattern finds exactly the texts of [unwrap_shape]. *)
Lemma force_unwrap_search ua (code : str) :
  re_search ua force_unwrap_re code = true <-> unwrap_shape code.
Proof.
  rewrite re_search_spec. unfold force_unwrap_re, unwrap_shape. split.
  - intros (pre0 & suf & p' & s' & -> & H).
    apply matches_Cat_iff in H as (p1 & s1 & H1 & H).
    apply matches_Cls_iff in H1 as (x & -> & Hx & ->).
    apply matches_Cat_iff in H as (p2 & s2 & H2 & H).
    apply matches_star_cls_iff in H2 as (w & -> & Hw & ->).
    apply matches_Cat_iff in H as (p3 & s3 & H3 & H).
    apply matches_Cls_iff in H3 as (b & -> & Hb & ->).
    apply char_eqb_eq in Hb. subst b.
    apply matches_Cat_iff in H as (p4 & s4 & H4 & H5).
    apply matches_star_cls_iff in H4 as (w' & -> & Hw' & ->).
    apply matches_Cls_iff in H5 as (y & -> & Hy & _).
    assert (Hbefore : exists pre X, pre0 ++ x :: w = pre ++ [X]
                                    /\ none_of "!=<>" X = true).
    { destruct (last_case w) as [-> | (w0 & c & ->)].
      - exists pre0, x. auto.
      - rewrite forallb_app in Hw. apply andb_true_iff in Hw as [_ Hc].
        cbn [forallb] in Hc. rewrite andb_true_r in Hc.
        exists (pre0 ++ x :: w0), c. split.
        + rewrite <- app_assoc. reflexivity.
        + apply space_not_excluded, Hc. }
    assert (Hafter : exists Y post, w' ++ y :: s' = Y :: post
                                    /\ none_of "=" Y = true).
    { destruct w' as [|c w1].
      - exists y, s'. auto.
      - cbn [forallb] in Hw'. apply andb_true_iff in Hw' as [Hc _].
        exists c, (w1 ++ y :: s'). split; [reflexivity|].
        apply space_not_excluded, Hc. }
    destruct Hbefore as (pre & X & E1 & HX).
    destruct Hafter as (Y & post & E2 & HY).
    exists pre, X, Y, post. repeat split; auto.
    rewrite E2.
    change (pre0 ++ x :: w ++ chr "!" :: Y :: post)
      with (pre0 ++ (x :: w) ++ chr "!" :: Y :: post).
    rewrite app_assoc, E1, <- app_assoc. reflexivity.
  - intros (pre & x & y & post & -> & Hx & Hy).
    exists pre, (x :: chr "!" :: y :: post), (Some y), post.
    split; [reflexivity|].
    apply matches_Cat_iff. exists (Some x), (chr "!" :: y :: post). split.
    { apply matches_Cls_iff. eauto. }
    apply matches_Cat_iff. exists (Some x), (chr "!" :: y :: post). split.
    { apply matches_star_cls_iff. exists []. auto. }
    apply matches_Cat_iff. exists (Some (chr "!")), (y :: post). split.
    { apply matches_Cls_iff. exists (chr "!"). auto using char_eqb_refl. }
    apply matches_Cat_iff. exists (Some (chr "!")), (y :: post). split.
    { apply matches_star_cls_iff. exists []. auto. }
    apply matches_Cls_iff. eauto.
Qed.

(** The text examined is the whole line, or what precedes its first
    comment-start token. *)
Lemma code_part_spec (line : str) :
  (contains (lit "//") line = false -> code_part line = line)
  /\ (contains (lit "//") line = true ->
      before_first (lit "//") (code_part line) line).
Proof.
  unfold code_part. split; intros H; rewrite H; [reflexivity|].
  destruct (@split_go_first (lit "//") [] line H)
    as (code & rest & H1 & H2 & H3).
  unfold split. destruct (split_go (lit "//") 0 [] line) as [|x l];
    [discriminate|].
  cbn [hd_error] in H1. injection H1 as ->. cbn [hd rev app].
  exists rest. auto.
Qed.

(** C4, as stated, fails where the '!' has no character before it or no
    character after it in the code part: the pattern asks for one on each
    side.  Neither a line that begins with a negation nor a forced unwrap
    that ends the code part is flagged, though both hold a '!' that is
    neither preceded by one of the four characters nor followed by '='. *)
Lemma force_unwrap_counterexample :
  unwrap_as_claimed (code_part (lit "!ready"))
  /\ check_force_unwrapping ascii_only (lit "a.swift") [lit "!ready"] start
     = (Val tt, start)
  /\ unwrap_as_claimed (code_part (lit "let v = opt!// forced"))
  /\ check_force_unwrapping ascii_only (lit "a.swift")
                            [lit "let v = opt!// forced"] start
     = (Val tt, start).
Proof.
  split; [|split; [|split]].
  - exists [], (lit "ready"). split; [reflexivity|]. split.
    + left. reflexivity.
    + right. exists (chr "r"), (lit "eady"). split; reflexivity.
  - vm_compute. reflexivity.
  - exists (lit "let v = opt"), []. split; [reflexivity|]. split.
    + right. exists (lit "let v = op"), (chr "t"). split; reflexivity.
    + left. reflexivity.
  - vm_compute. reflexivity.
Qed.

(** C4, amended.  For every line, the rule examines the line itself when
    it holds no comment-start token and otherwise the text before the
    first one; it logs exactly one [force_unwrapping] warning for the line
    when the examined text holds a '!' with a character just before it
    that is none of '!', '=', '<', '>' and a character just after it that
    is not '=', however many such places there are, and nothing
    otherwise. *)
Theorem force_unwrap_rule ua fp i line st :
  (contains (lit "//") line = false -> code_part line = line)
  /\ (contains (lit "//") line = true ->
      before_first (lit "//") (code_part line) line)
  /\ (unwrap_shape (code_part line) ->
      force_unwrapping_body ua fp (i, line) st
      = log (warning fp i "force_unwrapping" force_unwrapping_msg) st)
  /\ (~ unwrap_shape (code_part line) ->
      force_unwrapping_body ua fp (i, line) st = (Val tt, st)).
Proof.
  destruct (code_part_spec line) as [H1 H2].
  split; [exact H1|]. split; [exact H2|].
  split; intros H; rewrite force_unwrapping_body_log; cbn [fst snd].
  - apply (force_unwrap_search ua) in H. rewrite H. apply log_all_one.
  - destruct (re_search ua force_unwrap_re (code_part line)) eqn:E;
      [|reflexivity].
    apply force_unwrap_search in E. contradiction.
Qed.

Lemma force_unwrap_rule_witness :
  force_unwrapping_body ascii_only (lit "a.swift")
                        (4, lit "let n = name!.count + other!.count // ok!")
                        start
  = log (warning (lit "a.swift") 4 "force_unwrapping" force_unwrapping_msg)
        start.
Proof.
  destruct (@force_unwrap_rule ascii_only (lit "a.swift") 4
              (lit "let n = name!.count + other!.count // ok!") start)
    as (_ & _ & H & _).
  apply H.
  exists (lit "let n = nam"), (chr "e"), (chr "."),
         (lit "count + other!.count ").
  split; [reflexivity|]. split; reflexivity.
Defined.

End ForceUnwrap.

(* ===================================================================== *)
(** * The TODO-format rule and the naming rule                            *)
(* ===================================================================== *)

Module Patterns.
Import Py Re Checker Samples PyFacts ReFacts CheckerFacts.
Local Open Scope py_scope.

Lemma todo_search ua (line : str) :
  re_search ua todo_re line = true <-> marker_with_colon line.
Proof.
  unfold todo_re. rewrite re_search_Lit, contains_iff.
  unfold marker_with_colon.
  change (lit "// TODO:") with (lit "// TODO" ++ [chr ":"]).
  split; intros (pre & post & ->); exists pre, post;
    rewrite <- (app_assoc (lit "// TODO")); reflexivity.
Qed.

(** C5.  For every line holding the to-do marker, the rule logs nothing
    when some occurrence of the marker is immediately followed by a colon,
    and logs exactly one [todo_format] warning for the line otherwise. *)
Theorem todo_format_rule ua fp i line st :
  contains (lit "// TODO") line = true ->
  (marker_with_colon line ->
   todo_format_body ua fp (i, line) st = (Val tt, st))
  /\ (~ marker_with_colon line ->
      todo_format_body ua fp (i, line) st
      = log (warning fp i "todo_format" todo_format_msg) st).
Proof.
  intros Hm. split; intros H; rewrite todo_format_body_log; cbn [fst snd];
    rewrite Hm; cbn [andb].
  - apply (todo_search ua) in H. rewrite H. reflexivity.
  - destruct (re_search ua todo_re line) eqn:E.
    + apply todo_search in E. contradiction.
    + apply log_all_one.
Qed.

Lemma todo_format_rule_witness :
  check_todo_format ascii_only (lit "a.swift") [lit "// TODO: fix this"] start
  = (Val tt, start)
  /\ check_todo_format ascii_only (lit "a.swift") [lit "// TODO fix this"]
                       start
     = log (warning (lit "a.swift") 1 "todo_format" todo_format_msg) start.
Proof.
  split.
  - destruct (@todo_format_rule ascii_only (lit "a.swift") 1
                (lit "// TODO: fix this") start eq_refl) as [H _].
    unfold check_todo_format. cbn [enumerate for_each]. unfold bind.
    rewrite H; [reflexivity|].
    exists [], (lit " fix this"). reflexivity.
  - destruct (@todo_format_rule ascii_only (lit "a.swift") 1
                (lit "// TODO fix this") start eq_refl) as [_ H].
    unfold check_todo_format. cbn [enumerate for_each]. unfold bind.
    rewrite H.
    + unfold log. rewrite log_issue_run. reflexivity.
    + intros Hc. apply (todo_search ascii_only) in Hc. discriminate Hc.
Defined.

(** ** The naming rule *)

Section Naming.
Variable ua : char -> bool.

Lemma boundary_before_word prev c s :
  is_word ua c = true ->
  (boundary ua prev (c :: s) = true <-> is_word_opt ua prev = false).
Proof.
  intros Hc. unfold boundary. cbn [hd_error is_word_opt]. rewrite Hc.
  destruct (is_word_opt ua prev); cbn; split; congruence.
Qed.

Lemma variable_search (line : str) :
  re_search ua variable_re line = true <-> variable_shape ua line.
Proof.
  rewrite re_search_spec. unfold variable_re, variable_shape, word_start.
  split.
  - intros (pre & suf & p' & s' & -> & H).
    apply matches_Cat_iff in H as (p1 & s1 & H1 & H).
    apply matches_WordB_iff in H1 as (Hb & -> & ->).
    apply matches_Cat_iff in H as (p2 & s2 & H2 & H).
    apply matches_Cat_iff in H as (p3 & s3 & H3 & H).
    apply matches_plus_cls_iff in H3 as (sp & ws & -> & Hsp & Hws & ->).
    apply matches_Cat_iff in H as (p4 & s4 & H4 & H).
    apply matches_Cat_iff in H4 as (p5 & s5 & H5 & H6).
    apply matches_Cls_iff in H5 as (u & -> & Hu & ->).
    apply matches_star_cls_iff in H6 as (name & -> & Hname & ->).
    apply matches_Cat_iff in H as (p6 & s6 & H6 & H7).
    apply matches_star_cls_iff in H6 as (ws' & -> & Hws' & ->).
    apply matches_Cls_iff in H7 as (e & -> & He & _).
    apply char_eqb_eq in He. subst e.
    assert (Hkw : exists kw, (kw = lit "let" \/ kw = lit "var")
                             /\ suf = kw ++ sp :: ws ++ u :: name ++ ws'
                                        ++ chr "=" :: s'
                             /\ is_word_opt ua (prev_after None pre) = false).
    { apply matches_Alt_iff in H2 as [H2 | H2];
        apply matches_Lit_iff in H2 as [-> _].
      - exists (lit "let"). repeat split; auto.
        + eapply boundary_before_word; [|exact Hb]. reflexivity.
      - exists (lit "var"). repeat split; auto.
        + eapply boundary_before_word; [|exact Hb]. reflexivity. }
    destruct Hkw as (kw & Hkw & -> & Hw).
    exists pre, kw, (sp :: ws), u, name, ws', s'.
    repeat split; auto.
    + discriminate.
    + cbn [forallb]. rewrite Hsp, Hws. reflexivity.
  - intros (pre & kw & ws & u & name & ws' & post
            & -> & Hw & Hkw & Hne & Hws & Hu & Hname & Hws').
    destruct ws as [|sp ws]; [contradiction|].
    cbn [forallb] in Hws. apply andb_true_iff in Hws as [Hsp Hws].
    eexists pre, _, _, post. split; [reflexivity|].
    apply matches_Cat_iff. eexists _, _. split.
    { apply matches_WordB_iff. repeat split.
      destruct Hkw as [-> | ->];
        (apply boundary_before_word; [reflexivity | exact Hw]). }
    apply matches_Cat_iff.
    exists (prev_after (prev_after None pre) kw),
           ((sp :: ws) ++ u :: name ++ ws' ++ chr "=" :: post).
    split.
    { apply matches_Alt_iff.
      destruct Hkw as [-> | ->]; [left | right];
        apply matches_Lit_iff; auto. }
    apply matches_Cat_iff. eexists _, _. split.
    { apply matches_plus_cls_iff. exists sp, ws. repeat split; auto. }
    apply matches_Cat_iff. eexists _, _. split.
    { apply matches_Cat_iff. eexists _, _. split.
      - apply matches_Cls_iff. exists u. repeat split. exact Hu.
      - apply matches_star_cls_iff. exists name. repeat split. exact Hname. }
    apply matches_Cat_iff. eexists _, _. split.
    { apply matches_star_cls_iff. exists ws'. repeat split. exact Hws'. }
    apply matches_Cls_iff. exists (chr "="). repeat split.
Qed.

Lemma type_search (line : str) :
  re_search ua type_re line = true <-> type_shape ua line.
Proof.
  rewrite re_search_spec. unfold type_re, type_shape, word_start.
  split.
  - intros (pre & suf & p' & s' & -> & H).
    apply matches_Cat_iff in H as (p1 & s1 & H1 & H).
    apply matches_WordB_iff in H1 as (Hb & -> & ->).
    apply matches_Cat_iff in H as (p2 & s2 & H2 & H).
    apply matches_Cat_iff in H as (p3 & s3 & H3 & H).
    apply matches_plus_cls_iff in H3 as (sp & ws & -> & Hsp & Hws & ->).
    apply matches_Cat_iff in H as (p5 & s5 & H5 & H6).
    apply matches_Cls_iff in H5 as (c & -> & Hc & ->).
    apply matches_star_cls_iff in H6 as (name & -> & Hname & _).
    assert (Hkw : exists kw,
               (kw = lit "class" \/ kw = lit "struct" \/ kw = lit "enum"
                \/ kw = lit "protocol")
               /\ suf = kw ++ sp :: ws ++ c :: name ++ s'
               /\ is_word_opt ua (prev_after None pre) = false).
    { apply matches_Alt_iff in H2 as [H2 | H2];
        [|apply matches_Alt_iff in H2 as [H2 | H2];
          [|apply matches_Alt_iff in H2 as [H2 | H2]]];
        apply matches_Lit_iff in H2 as [-> _].
      - exists (lit "class"). repeat split; auto.
        eapply boundary_before_word; [|exact Hb]. reflexivity.
      - exists (lit "struct"). repeat split; auto.
        eapply boundary_before_word; [|exact Hb]. reflexivity.
      - exists (lit "enum"). repeat split; auto.
        eapply boundary_before_word; [|exact Hb]. reflexivity.
      - exists (lit "protocol"). repeat split; auto.
        eapply boundary_before_word; [|exact Hb]. reflexivity. }
    destruct Hkw as (kw & Hkw & -> & Hw).
    exists pre, kw, (sp :: ws), c, (name ++ s').
    repeat split; auto.
    + discriminate.
    + cbn [forallb]. rewrite Hsp, Hws. reflexivity.
  - intros (pre & kw & ws & c & post & -> & Hw & Hkw & Hne & Hws & Hc).
    destruct ws as [|sp ws]; [contradiction|].
    cbn [forallb] in Hws. apply andb_true_iff in Hws as [Hsp Hws].
    eexists pre, _, _, post. split; [reflexivity|].
    apply matches_Cat_iff. eexists _, _. split.
    { apply matches_WordB_iff. repeat split.
      destruct Hkw as [-> | [-> | [-> | ->]]];
        (apply boundary_before_word; [reflexivity | exact Hw]). }
    apply matches_Cat_iff.
    exists (prev_after (prev_after None pre) kw), ((sp :: ws) ++ c :: post).
    split.
    { destruct Hkw as [-> | [-> | [-> | ->]]].
      - apply matches_Alt_iff. left. apply matches_Lit_iff; auto.
      - apply matches_Alt_iff. right. apply matches_Alt_iff. left.
        apply matches_Lit_iff; auto.
      - apply matches_Alt_iff. right. apply matches_Alt_iff. right.
        apply matches_Alt_iff. left. apply matches_Lit_iff; auto.
      - apply matches_Alt_iff. right. apply matches_Alt_iff. right.
        apply matches_Alt_iff. right. apply matches_Lit_iff; auto. }
    apply matches_Cat_iff. eexists _, _. split.
    { apply matches_plus_cls_iff. exists sp, ws. repeat split; auto. }
    apply matches_Cat_iff. eexists _, _. split.
    { apply matches_Cls_iff. exists c. repeat split. exact Hc. }
    apply matches_star_cls_iff. exists []. repeat split.
Qed.

End Naming.

(** C10.  The variable check finds a line exactly when it holds [let] or
    [var] at a word start, whitespace, an uppercase letter followed by
    ASCII letters and digits, optional whitespace and then '=': a line
    that holds no '=' never gives a [variable_name] issue, as for
    [let Foo: Int].  The type check finds a line exactly when it holds one
    of the four keywords at a word start, whitespace and a lowercase
    letter: nothing is asked of what follows the name, which may be the
    end of the line.  The rule logs, in this order, one [variable_name]
    warning when the first check finds the line and one [type_name]
    warning when the second does. *)
Theorem naming_rule ua fp i line st :
  (re_search ua variable_re line = true <-> variable_shape ua line)
  /\ (re_search ua type_re line = true <-> type_shape ua line)
  /\ naming_conventions_body ua fp (i, line) st
     = log_all ((if re_search ua variable_re line
                 then [warning fp i "variable_name" variable_name_msg]
                 else [])
                ++ (if re_search ua type_re line
                    then [warning fp i "type_name" type_name_msg]
                    else [])) st
  /\ ((forall c, In c line -> c <> chr "=") ->
      re_search ua variable_re line = false)
  /\ naming_conventions_body ua fp (i, lit "let Foo: Int") st = (Val tt, st)
  /\ naming_conventions_body ua fp (i, lit "let Foo = 5") st
     = log (warning fp i "variable_name" variable_name_msg) st
  /\ naming_conventions_body ua fp (i, lit "struct config") st
     = log (warning fp i "type_name" type_name_msg) st.
Proof.
  split; [apply variable_search|]. split; [apply type_search|].
  split; [apply (naming_conventions_body_log ua fp (i, line) st)|].
  split; [|split; [|split]].
  - intros Hno. destruct (re_search ua variable_re line) eqn:E; [|reflexivity].
    apply variable_search in E
      as (pre & kw & ws & u & name & ws' & post & -> & _).
    exfalso. apply (Hno (chr "=")); [|reflexivity].
    apply in_or_app. right. apply in_or_app. right. apply in_or_app. right.
    right. apply in_or_app. right. apply in_or_app. right. left. reflexivity.
  - rewrite naming_conventions_body_log. cbn [fst snd].
    replace (re_search ua variable_re (lit "let Foo: Int")) with false
      by (vm_compute; reflexivity).
    replace (re_search ua type_re (lit "let Foo: Int")) with false
      by (vm_compute; reflexivity).
    reflexivity.
  - rewrite naming_conventions_body_log. cbn [fst snd].
    replace (re_search ua variable_re (lit "let Foo = 5")) with true
      by (vm_compute; reflexivity).
    replace (re_search ua type_re (lit "let Foo = 5")) with false
      by (vm_compute; reflexivity).
    apply log_all_one.
  - rewrite naming_conventions_body_log. cbn [fst snd].
    replace (re_search ua variable_re (lit "struct config")) with false
      by (vm_compute; reflexivity).
    replace (re_search ua type_re (lit "struct config")) with true
      by (vm_compute; reflexivity).
    apply log_all_one.
Qed.

Lemma naming_rule_witness :
  re_search ascii_only variable_re (lit "let Foo: Int") = false
  /\ check_naming_conventions ascii_only (lit "a.swift")
       [lit "let Foo: Int"; lit "struct config"] start
     = log (warning (lit "a.swift") 2 "type_name" type_name_msg) start.
Proof.
  destruct (@naming_rule ascii_only (lit "a.swift") 1 (lit "let Foo: Int")
              start) as (_ & _ & _ & H & H1 & _).
  destruct (@naming_rule ascii_only (lit "a.swift") 2 (lit "let Foo: Int")
              start) as (_ & _ & _ & _ & _ & _ & H2).
  split.
  - apply H. intros c Hc.
    repeat (destruct Hc as [<- | Hc]; [discriminate|]). destruct Hc.
  - unfold check_naming_conventions. cbn [enumerate for_each]. unfold bind.
    rewrite H1. change (1 + 1) with 2. rewrite H2.
    unfold log. rewrite log_issue_run. reflexivity.
Defined.

End Patterns.

(* ===================================================================== *)
(** * Interruption                                                        *)
(* ===================================================================== *)

Module Interruption.
Import Py Re Checker Samples PyFacts ReFacts CheckerFacts.
Local Open Scope py_scope.

(** [check_file] lets a [KeyboardInterrupt] through untouched. *)
Lemma check_file_interrupted ua rd f st :
  rd f = Raise KeyboardInterrupt ->
  check_file ua rd f st = (Raise KeyboardInterrupt, st).
Proof.
  intros H. unfold check_file, try_except_Exception, bind. rewrite H.
  reflexivity.
Qed.

(** Files whose read succeeds or fails with an ordinary exception are
    scanned to the end. *)
Lemma for_each_check_file_completes ua rd files st :
  (forall g, In g files -> forall e, rd g = Raise e -> is_Exception e = true) ->
  fst (for_each files (check_file ua rd) st) = Val tt.
Proof.
  intros Hok.
  destruct (for_each_check_file_run ua rd files st)
    as (r & st' & E & _ & [-> | (e & -> & Hn & g & Hg & Hrd)]);
    rewrite E; [reflexivity|].
  rewrite (Hok g Hg e Hrd) in Hn. discriminate.
Qed.

Lemma bind_raise {A B} (c : M A) (k : A -> M B) st e st' :
  c st = (Raise e, st') -> bind c k st = (Raise e, st').
Proof. intros H. unfold bind. rewrite H. reflexivity. Qed.

Lemma check_directory_nonempty ua glob rd directory files st :
  glob (path_join directory (lit "**/*.swift")) = files ->
  files <> [] ->
  check_directory ua glob rd directory st
  = (print (lit "Found " ++ str_of_int (Z.of_nat (length files))
            ++ lit " Swift files to check") ;;
     for_each files (check_file ua rd)) st.
Proof.
  intros Hg Hne. unfold check_directory. rewrite Hg.
  destruct files; [contradiction | reflexivity].
Qed.

(** C8, as stated, fails.  When the read of the one file of a run is
    interrupted, the process does not exit with code 0: the interruption
    reaches the top level uncaught, and the only line printed is the count
    of files found, so there is no cancellation notice. *)
Lemma interruption_counterexample :
  run_process ascii_only demo_argv demo_isdir demo_glob interrupted_read
  = (Uncaught KeyboardInterrupt,
     mkState init [lit "Found 1 Swift files to check"]).
Proof. vm_compute. reflexivity. Qed.

(** C8, amended.  In a run whose command line names a directory, let the
    read of some file be interrupted, the files before it being read or
    failing with an ordinary exception.  Nothing catches the interruption:
    [check_file] handles [Exception] only and [main] has no handler.  The
    run ends with [KeyboardInterrupt] uncaught at the top level, not
    through [sys.exit], and the state it ends in is the state reached when
    the files before the interrupted one had been scanned: nothing is
    printed afterwards, neither a cancellation notice nor a summary. *)
Theorem interruption_is_not_caught ua argv isdir glob rd directory
        before f after :
  nth_error argv 1 = Some directory ->
  isdir directory = true ->
  glob (path_join directory (lit "**/*.swift")) = before ++ f :: after ->
  (forall g, In g before ->
             forall e, rd g = Raise e -> is_Exception e = true) ->
  rd f = Raise KeyboardInterrupt ->
  let result := run_process ua argv isdir glob rd in
  let found :=
    lit "Found "
    ++ str_of_int (Z.of_nat (length (before ++ f :: after)))
    ++ lit " Swift files to check" in
  fst result = Uncaught KeyboardInterrupt
  /\ (forall code, fst result <> Exited code)
  /\ snd result
     = snd (for_each before (check_file ua rd) (snd (print found start))).
Proof.
  intros Hd Hi Hg Hok Hrd result found.
  assert (Hrun : result
                 = (Uncaught KeyboardInterrupt,
                    snd (for_each before (check_file ua rd)
                                  (snd (print found start))))).
  { assert (Hscan : check_directory ua glob rd directory start
                    = (Raise KeyboardInterrupt,
                       snd (for_each before (check_file ua rd)
                                     (snd (print found start))))).
    { rewrite (@check_directory_nonempty ua glob rd directory
                 (before ++ f :: after) start Hg)
        by (destruct before; discriminate).
      set (st0 := snd (print found start)).
      unfold bind at 1.
      change (print _ start) with (Val tt, st0). cbv beta iota.
      rewrite for_each_app.
      pose proof (@for_each_check_file_completes ua rd before st0 Hok) as Hb.
      unfold bind at 1.
      destruct (for_each before (check_file ua rd) st0) as [r st1].
      cbn [fst] in Hb. subst r. cbn [snd for_each]. unfold bind at 1.
      rewrite (@check_file_interrupted ua rd f st1 Hrd). reflexivity. }
    subst result. unfold run_process.
    rewrite (@Verdict.main_valid ua argv isdir glob rd directory Hd Hi).
    rewrite (@bind_raise _ _ _ _ _ _ _ Hscan). reflexivity. }
  rewrite Hrun. cbn [fst snd]. repeat split. discriminate.
Qed.

Lemma interruption_is_not_caught_witness :
  fst (run_process ascii_only demo_argv demo_isdir demo_glob interrupted_read)
  = Uncaught KeyboardInterrupt.
Proof.
  refine (proj1 (@interruption_is_not_caught ascii_only demo_argv demo_isdir
                   demo_glob interrupted_read (lit "src") [] (lit "a.swift")
                   [] eq_refl eq_refl eq_refl _ eq_refl)).
  intros g [].
Defined.

End Interruption.

(* ===================================================================== *)
(** * Whole runs: what is logged, what is printed, how the run ends       *)
(* ===================================================================== *)

Module Runs.
Import Py Re Checker Samples Reports Worlds PyFacts ReFacts CheckerFacts.
Local Open Scope py_scope.

Lemma logged_app a b c : logged (a ++ b) c = logged b (logged a c).
Proof. apply fold_left_app. Qed.

(** The state after a list of calls of [log_issue], in closed form. *)
Lemma log_all_normal l : forall st,
  log_all l st
  = (Val tt, mkState (logged l (self st)) (stdout st ++ map render_issue l)).
Proof.
  induction l as [|x l IH]; intros st.
  - rewrite log_all_nil. cbn [map logged fold_left]. rewrite app_nil_r.
    destruct st; reflexivity.
  - rewrite log_all_cons, IH. unfold log. rewrite log_issue_run.
    cbn [snd self stdout map]. rewrite <- app_assoc. reflexivity.
Qed.

Lemma seq_log (c k : M unit) l :
  (forall st, c st = log_all l st) ->
  forall st, (c ;; k) st = k (snd (log_all l st)).
Proof.
  intros H st. unfold bind. rewrite H, (log_all_eta l st). reflexivity.
Qed.

(** The six rules log warnings only. *)
Lemma file_report_warnings ua fp lines :
  Forall is_warning (file_report ua fp lines).
Proof.
  unfold file_report. repeat (apply Forall_app; split).
  - apply Forall_flat_map, Forall_forall. intros x _.
    apply Forall_cond_warning.
  - apply Forall_flat_map, Forall_forall. intros x _.
    apply Forall_cond_warning.
  - apply Forall_flat_map, Forall_forall. intros x _.
    apply Forall_cond_warning.
  - apply fl_reports_warnings.
  - apply Forall_flat_map, Forall_forall. intros x _.
    apply Forall_cond_warning.
  - apply Forall_flat_map, Forall_forall. intros x _.
    apply Forall_app. split; apply Forall_cond_warning.
Qed.

Lemma run_issues_warnings ua rd files :
  Forall is_warning (run_issues ua rd files).
Proof.
  apply Forall_flat_map, Forall_forall. intros f _. unfold file_issues.
  destruct (rd f); [apply file_report_warnings | constructor].
Qed.

(** Logging warnings only: the counters in closed form. *)
Lemma logged_warnings l : forall c,
  Forall is_warning l ->
  issues (logged l c) = issues c ++ map render_issue l
  /\ warnings (logged l c) = warnings c + Z.of_nat (length l)
  /\ errors (logged l c) = errors c.
Proof.
  induction l as [|x l IH]; intros c H.
  - cbn [logged fold_left map length]. rewrite app_nil_r.
    repeat split; lia.
  - inversion H as [|? ? Hx Hl]; subst.
    unfold logged. cbn [fold_left]. fold (logged l (log_one c x)).
    destruct (IH (log_one c x) Hl) as (I1 & I2 & I3).
    rewrite I1, I2, I3. unfold log_one, has_severity. red in Hx. rewrite Hx.
    change (str_eqb (lit "warning") (lit "error")) with false.
    cbn [issues warnings errors map length]. rewrite <- app_assoc.
    repeat split; lia.
Qed.

(** A file that was read: the six rules in their order. *)
Lemma check_file_scanned ua rd f lines st :
  rd f = Val lines ->
  check_file ua rd f st
  = (Val tt,
     mkState (logged (file_report ua f lines) (self st))
             (stdout st ++ (lit "Linting " ++ f)
                          :: map render_issue (file_report ua f lines))).
Proof.
  intros Hr. unfold check_file, try_except_Exception.
  unfold bind at 1. rewrite Hr.
  unfold bind at 1. cbn [print].
  rewrite (@seq_log _ _ _ (check_line_length_log f lines)).
  rewrite (@seq_log _ _ _ (check_force_unwrapping_log ua f lines)).
  rewrite (@seq_log _ _ _ (check_try_force_log f lines)).
  rewrite (@seq_log _ _ _ (check_function_length_log ua f lines)).
  rewrite (@seq_log _ _ _ (check_todo_format_log ua f lines)).
  rewrite check_naming_conventions_log.
  fold (line_length_report f lines).
  fold (force_unwrapping_report ua f lines).
  fold (try_force_report f lines).
  fold (function_length_report ua f lines).
  fold (todo_format_report ua f lines).
  fold (naming_report ua f lines).
  rewrite !log_all_normal. cbn [snd self stdout].
  unfold file_report. rewrite !logged_app, !map_app.
  rewrite <- !app_assoc. reflexivity.
Qed.

(** A file that could not be read. *)
Lemma check_file_failed ua rd f e st :
  rd f = Raise e -> is_Exception e = true ->
  check_file ua rd f st
  = (Val tt, mkState (self st) (stdout st ++ [error_checking_line f e])).
Proof.
  intros Hr He. unfold check_file, try_except_Exception.
  unfold bind at 1. rewrite Hr, He. reflexivity.
Qed.

Lemma check_file_normal ua rd f st :
  (forall e, rd f = Raise e -> is_Exception e = true) ->
  check_file ua rd f st
  = (Val tt,
     mkState (logged (file_issues ua rd f) (self st))
             (stdout st ++ file_output ua rd f)).
Proof.
  intros Hok. unfold file_issues, file_output.
  destruct (rd f) as [lines|e] eqn:Hr.
  - apply check_file_scanned, Hr.
  - apply check_file_failed; auto.
Qed.

Lemma scan_normal ua rd files : forall st,
  uninterrupted rd files ->
  for_each files (check_file ua rd) st
  = (Val tt,
     mkState (logged (run_issues ua rd files) (self st))
             (stdout st ++ flat_map (file_output ua rd) files)).
Proof.
  induction files as [|f files IH]; intros st Hok.
  - cbn. rewrite app_nil_r. destruct st; reflexivity.
  - cbn [for_each]. unfold bind.
    rewrite (@check_file_normal ua rd f st (Hok f (or_introl eq_refl))).
    rewrite IH by (intros g Hg; apply Hok; right; exact Hg).
    cbn [self stdout]. unfold run_issues. cbn [flat_map].
    rewrite logged_app, <- app_assoc. reflexivity.
Qed.

Lemma summary_normal st :
  summary st
  = (Val (0 <? errors (self st)),
     mkState (self st)
             (stdout st
              ++ [summary_line (warnings (self st)) (errors (self st))])).
Proof.
  unfold summary, bind, get_self, ret, summary_line.
  destruct ((warnings (self st) =? 0) && (errors (self st) =? 0));
    reflexivity.
Qed.

(** A complete run, in closed form. *)
Lemma run_normal ua argv isdir glob rd directory :
  nth_error argv 1 = Some directory ->
  isdir directory = true ->
  uninterrupted rd (glob (path_join directory (lit "**/*.swift"))) ->
  let files := glob (path_join directory (lit "**/*.swift")) in
  run_process ua argv isdir glob rd
  = (Exited 0,
     mkState (logged (run_issues ua rd files) init)
             (run_output ua rd directory files)).
Proof.
  intros Hd Hi Hok files.
  assert (Hscan : check_directory ua glob rd directory start
                  = (Val tt,
                     mkState (logged (run_issues ua rd files) init)
                             (match files with
                              | [] => [lit "No Swift files found in "
                                       ++ directory]
                              | _ :: _ =>
                                  found_line files
                                  :: flat_map (file_output ua rd) files
                              end))).
  { unfold check_directory. fold files.
    destruct files as [|f fs] eqn:Hf.
    - reflexivity.
    - unfold bind. cbn [print].
      rewrite scan_normal by (rewrite <- Hf; exact Hok).
      reflexivity. }
  destruct (@logged_warnings (run_issues ua rd files) init
              (run_issues_warnings ua rd files)) as (_ & Hw & He).
  cbn [init warnings errors] in Hw, He.
  unfold run_process.
  rewrite (@Verdict.main_valid ua argv isdir glob rd directory Hd Hi).
  unfold bind at 1. rewrite Hscan.
  unfold bind at 1. rewrite summary_normal. cbn [self stdout].
  rewrite He, Hw. cbn [Z.ltb Z.compare]. unfold sys_exit, raise.
  unfold run_output. replace (0 + Z.of_nat (length (run_issues ua rd files)))
    with (Z.of_nat (length (run_issues ua rd files))) by lia.
  reflexivity.
Qed.

Lemma logged_issues l : forall c,
  issues (logged l c) = issues c ++ map render_issue l.
Proof.
  induction l as [|x l IH]; intros c.
  - cbn [logged fold_left map]. now rewrite app_nil_r.
  - unfold logged. cbn [fold_left]. fold (logged l (log_one c x)).
    rewrite IH. cbn [log_one issues map]. now rewrite <- app_assoc.
Qed.

(** X1.  Every call of [log_issue] prints the very text it appends to the
    issue list: after any sequence of calls, of any severities, the lines
    added to the console and the issues added to the list are the same
    texts in the same order. *)
Theorem log_issue_echoes (calls : list Issue) (st : state) :
  fst (log_all calls st) = Val tt
  /\ stdout (snd (log_all calls st)) = stdout st ++ map render_issue calls
  /\ issues (self (snd (log_all calls st)))
     = issues (self st) ++ map render_issue calls.
Proof.
  rewrite log_all_normal. cbn [fst snd self stdout].
  repeat split. apply logged_issues.
Qed.

(** X2.  When a file is read, [check_file] prints the line announcing the
    file and then logs the issues rule by rule, not line by line: all the
    line-length issues first, then those of forced unwrapping, [try!],
    function length, to-do format and naming.  An issue of an early rule on
    a late line thus precedes an issue of a late rule on an early line. *)
Theorem check_file_rule_order ua rd f lines st :
  rd f = Val lines ->
  let found :=
    line_length_report f lines
    ++ force_unwrapping_report ua f lines
    ++ try_force_report f lines
    ++ function_length_report ua f lines
    ++ todo_format_report ua f lines
    ++ naming_report ua f lines in
  fst (check_file ua rd f st) = Val tt
  /\ issues (self (snd (check_file ua rd f st)))
     = issues (self st) ++ map render_issue found
  /\ stdout (snd (check_file ua rd f st))
     = stdout st ++ (lit "Linting " ++ f) :: map render_issue found.
Proof.
  intros Hr found. rewrite (@check_file_scanned ua rd f lines st Hr).
  cbn [fst snd self stdout]. repeat split. apply logged_issues.
Qed.

Lemma check_file_rule_order_witness :
  issues (self (snd (check_file ascii_only two_files_read (lit "b.swift")
                                start)))
  = [render_issue (warning (lit "b.swift") 2 "line_length"
                           (line_length_msg 121));
     render_issue (warning (lit "b.swift") 1 "todo_format" todo_format_msg)].
Proof.
  destruct (@check_file_rule_order ascii_only two_files_read (lit "b.swift")
              [lit "// TODO later"; long_line] start eq_refl)
    as (_ & H & _).
  rewrite H. lazy. reflexivity.
Defined.

(** X3.  A file whose read fails with an ordinary exception is skipped:
    one line naming the file and the message of the exception is printed,
    nothing is logged, no counter moves, and the files after it are
    scanned from there. *)
Theorem unreadable_file_is_skipped ua rd f e after st :
  rd f = Raise e ->
  is_Exception e = true ->
  for_each (f :: after) (check_file ua rd) st
  = for_each after (check_file ua rd)
      (mkState (self st)
               (stdout st
                ++ [lit "Error checking " ++ f ++ lit ": " ++ str_of_exn e])).
Proof.
  intros Hr He. cbn [for_each]. unfold bind.
  rewrite (@check_file_failed ua rd f e st Hr He). reflexivity.
Qed.

Lemma unreadable_file_is_skipped_witness :
  for_each [lit "a.swift"; lit "b.swift"]
           (check_file ascii_only two_files_read) start
  = check_file ascii_only two_files_read (lit "b.swift")
      (mkState init [lit "Error checking a.swift: Permission denied"]).
Proof.
  rewrite (@unreadable_file_is_skipped ascii_only two_files_read
             (lit "a.swift")
             (PyException (lit "PermissionError") (lit "Permission denied"))
             [lit "b.swift"] start eq_refl eq_refl).
  cbn [for_each]. unfold bind.
  destruct (check_file ascii_only two_files_read (lit "b.swift") _)
    as [[[]|e] st']; reflexivity.
Defined.

(** X4.  A run over a directory in which no Swift file is found prints
    that none was found and that there are no issues, logs nothing and
    exits with code 0. *)
Theorem empty_directory_run ua argv isdir glob rd directory :
  nth_error argv 1 = Some directory ->
  isdir directory = true ->
  glob (path_join directory (lit "**/*.swift")) = [] ->
  run_process ua argv isdir glob rd
  = (Exited 0,
     mkState init [lit "No Swift files found in " ++ directory;
                   9989%N :: lit " No issues found!"]).
Proof.
  intros Hd Hi Hg.
  assert (Hok : uninterrupted rd (glob (path_join directory
                                                  (lit "**/*.swift")))).
  { rewrite Hg. intros f []. }
  pose proof (@run_normal ua argv isdir glob rd directory Hd Hi Hok) as H.
  cbv zeta in H. rewrite Hg in H. exact H.
Qed.

Lemma empty_directory_run_witness :
  run_process ascii_only demo_argv demo_isdir no_files_glob demo_read
  = (Exited 0,
     mkState init [lit "No Swift files found in src";
                   9989%N :: lit " No issues found!"]).
Proof.
  exact (@empty_directory_run ascii_only demo_argv demo_isdir no_files_glob
           demo_read (lit "src") eq_refl eq_refl eq_refl).
Defined.

(** X5.  An invocation without a directory argument, or whose argument is
    no directory, ends with exit code 1 after one line of explanation;
    the file system is searched for no file and no checker state is
    built, whatever [glob] and the reads would answer. *)
Theorem invalid_invocation ua argv isdir glob rd :
  ((length argv < 2)%nat \/
   exists d, nth_error argv 1 = Some d /\ isdir d = false) ->
  fst (run_process ua argv isdir glob rd) = Exited 1
  /\ self (snd (run_process ua argv isdir glob rd)) = init
  /\ ((length argv < 2)%nat ->
      stdout (snd (run_process ua argv isdir glob rd))
      = [lit "Usage: python3 swift-check.py <directory>"])
  /\ (forall d, nth_error argv 1 = Some d ->
      stdout (snd (run_process ua argv isdir glob rd))
      = [lit "Error: " ++ d ++ lit " is not a directory"]).
Proof.
  intros H.
  destruct (Z.of_nat (length argv) <? 2) eqn:Hlen.
  - apply Z.ltb_lt in Hlen.
    assert (Hrun : run_process ua argv isdir glob rd
                   = (Exited 1,
                      mkState init
                        [lit "Usage: python3 swift-check.py <directory>"])).
    { unfold run_process, main.
      replace (Z.of_nat (length argv) <? 2) with true
        by (symmetry; apply Z.ltb_lt; exact Hlen).
      reflexivity. }
    rewrite Hrun. cbn [fst snd self stdout]. repeat split.
    intros d Hd.
    assert (1 < length argv)%nat by (apply nth_error_Some; congruence).
    lia.
  - apply Z.ltb_ge in Hlen.
    destruct H as [H | (d & Hd & Hi)]; [lia|].
    assert (Hrun : run_process ua argv isdir glob rd
                   = (Exited 1,
                      mkState init
                        [lit "Error: " ++ d ++ lit " is not a directory"])).
    { unfold run_process, main.
      replace (Z.of_nat (length argv) <? 2) with false
        by (symmetry; apply Z.ltb_ge; exact Hlen).
      unfold bind at 1. unfold getitem.
      replace (1 <? 0) with false by reflexivity. cbv zeta.
      replace (1 <? 0) with false by reflexivity.
      replace (Z.of_nat (length argv) <=? 1) with false
        by (symmetry; apply Z.leb_gt; lia).
      cbn [orb]. change (Z.to_nat 1) with 1%nat. rewrite Hd. unfold ret.
      rewrite Hi. reflexivity. }
    rewrite Hrun. cbn [fst snd self stdout]. repeat split.
    + intros Hl. lia.
    + intros d' Hd'. congruence.
Qed.

Lemma invalid_invocation_witness :
  fst (run_process ascii_only [lit "swift-check.py"] demo_isdir demo_glob
                   demo_read) = Exited 1
  /\ stdout (snd (run_process ascii_only demo_argv not_a_directory demo_glob
                              demo_read))
     = [lit "Error: src is not a directory"].
Proof.
  split.
  - refine (proj1 (@invalid_invocation ascii_only [lit "swift-check.py"]
                     demo_isdir demo_glob demo_read _)).
    left. cbn. lia.
  - refine (proj2 (proj2 (proj2 (@invalid_invocation ascii_only demo_argv
                     not_a_directory demo_glob demo_read _)))
                  (lit "src") eq_refl).
    right. exists (lit "src"). split; reflexivity.
Defined.

(** X6.  What the checker finds never fails a run: with a command line
    naming a directory, and reads that succeed or fail with an ordinary
    exception, the process exits with code 0 whatever the files hold. *)
Theorem valid_run_exits_zero ua argv isdir glob rd directory :
  nth_error argv 1 = Some directory ->
  isdir directory = true ->
  uninterrupted rd (glob (path_join directory (lit "**/*.swift"))) ->
  fst (run_process ua argv isdir glob rd) = Exited 0.
Proof.
  intros Hd Hi Hok.
  pose proof (@run_normal ua argv isdir glob rd directory Hd Hi Hok) as H.
  cbv zeta in H. rewrite H. reflexivity.
Qed.

Lemma two_files_uninterrupted :
  uninterrupted two_files_read
    (two_files_glob (path_join (lit "src") (lit "**/*.swift"))).
Proof.
  intros f _ e. unfold two_files_read.
  destruct (str_eqb f (lit "a.swift")).
  - intros H. injection H as <-. reflexivity.
  - discriminate.
Qed.

Lemma valid_run_exits_zero_witness :
  fst (run_process ascii_only demo_argv demo_isdir two_files_glob
                   two_files_read) = Exited 0.
Proof.
  exact (@valid_run_exits_zero ascii_only demo_argv demo_isdir two_files_glob
           two_files_read (lit "src") eq_refl eq_refl
           two_files_uninterrupted).
Defined.

(** X7.  At the end of such a run the issue list holds, file after file in
    the order of [glob], the issues of each file that could be read; the
    warning counter is the length of the list and the error counter is
    zero. *)
Theorem run_counters ua argv isdir glob rd directory :
  nth_error argv 1 = Some directory ->
  isdir directory = true ->
  uninterrupted rd (glob (path_join directory (lit "**/*.swift"))) ->
  let files := glob (path_join directory (lit "**/*.swift")) in
  let c := self (snd (run_process ua argv isdir glob rd)) in
  issues c = map render_issue (run_issues ua rd files)
  /\ warnings c = Z.of_nat (length (issues c))
  /\ errors c = 0.
Proof.
  intros Hd Hi Hok files c.
  pose proof (@run_normal ua argv isdir glob rd directory Hd Hi Hok) as H.
  cbv zeta in H. subst c. rewrite H. cbn [snd self].
  destruct (@logged_warnings (run_issues ua rd files) init
              (run_issues_warnings ua rd files)) as (H1 & H2 & H3).
  fold files. rewrite H1, H2, H3. cbn [init issues warnings errors app].
  rewrite length_map. repeat split; lia.
Qed.

Lemma run_counters_witness :
  warnings (self (snd (run_process ascii_only demo_argv demo_isdir
                                   two_files_glob two_files_read))) = 2
  /\ errors (self (snd (run_process ascii_only demo_argv demo_isdir
                                    two_files_glob two_files_read))) = 0.
Proof.
  destruct (@run_counters ascii_only demo_argv demo_isdir two_files_glob
              two_files_read (lit "src") eq_refl eq_refl
              two_files_uninterrupted) as (H1 & H2 & H3).
  split; [|exact H3].
  rewrite H2, H1. lazy. reflexivity.
Defined.

(** ** Where the issues of a file point *)

Lemma cond_warning_line (c : bool) fp i rule msg :
  Forall (fun y => issue_file y = fp /\ issue_line y = i)
         (if c then [warning fp i rule msg] else []).
Proof. destruct c; repeat constructor. Qed.

Lemma per_line_report_lines fp (F : Z * str -> list Issue) :
  (forall x, Forall (fun y => issue_file y = fp /\ issue_line y = fst x)
                    (F x)) ->
  forall lines k,
    Forall (fun y => issue_file y = fp
                     /\ k <= issue_line y < k + Z.of_nat (length lines))
           (flat_map F (enumerate lines k)).
Proof.
  intros HF. induction lines as [|l lines IH]; intros k;
    cbn [enumerate flat_map length].
  - constructor.
  - apply Forall_app. split.
    + eapply Forall_impl; [|apply (HF (k, l))].
      cbn [fst]. intros y [Hf Hl]. split; [exact Hf | lia].
    + eapply Forall_impl; [|apply (IH (k + 1))].
      cbv beta. intros y [Hf Hl]. split; [exact Hf | lia].
Qed.

Lemma fl_reports_lines ua fp lines : forall k loc,
  1 <= k ->
  (in_function loc = true -> 1 <= function_start loc < k) ->
  Forall (fun y => issue_file y = fp
                   /\ 1 <= issue_line y < k + Z.of_nat (length lines))
         (fl_reports ua fp (enumerate lines k) loc).
Proof.
  induction lines as [|l lines IH]; intros k loc Hk Hinv;
    cbn [enumerate fl_reports length].
  - constructor.
  - apply Forall_app. split.
    + unfold fl_report.
      destruct (in_function loc) eqn:Hin;
        [|rewrite andb_false_r; constructor].
      specialize (Hinv eq_refl).
      match goal with
      | |- Forall _ (if ?c then _ else _) => destruct c
      end; repeat constructor; cbn [issue_line warning]; lia.
    + eapply Forall_impl; [|apply (IH (k + 1)); [lia|]].
      * cbv beta. intros y [Hf Hl]. split; [exact Hf | lia].
      * unfold fl_next.
        destruct (is_func_decl ua l).
        -- destruct (contains (lit "{") l);
             cbn [in_function function_start]; intros H;
             [lia | specialize (Hinv H); lia].
        -- destruct (in_function loc) eqn:Hin.
           ++ cbn [in_function function_start]. intros _.
              specialize (Hinv eq_refl). lia.
           ++ rewrite Hin. discriminate.
Qed.

(** X18.  Every issue that [check_file] logs for a file that was read is
    a warning, carries the path of that file, and points to one of its
    lines: its line number lies between 1 and the number of lines. *)
Theorem issues_point_into_the_file ua rd f lines st :
  rd f = Val lines ->
  exists found,
    issues (self (snd (check_file ua rd f st)))
    = issues (self st) ++ map render_issue found
    /\ Forall (fun y => is_warning y /\ issue_file y = f
                        /\ 1 <= issue_line y <= Z.of_nat (length lines))
              found.
Proof.
  intros Hr. exists (file_report ua f lines). split.
  - rewrite (@check_file_scanned ua rd f lines st Hr).
    cbn [snd self]. apply logged_issues.
  - assert (H : Forall (fun y => issue_file y = f
                          /\ 1 <= issue_line y
                                < 1 + Z.of_nat (length lines))
                       (file_report ua f lines)).
    { unfold file_report. repeat (apply Forall_app; split).
      - apply per_line_report_lines. intros x. apply cond_warning_line.
      - apply per_line_report_lines. intros x. apply cond_warning_line.
      - apply per_line_report_lines. intros x. apply cond_warning_line.
      - apply fl_reports_lines; [lia | discriminate].
      - apply per_line_report_lines. intros x. apply cond_warning_line.
      - apply per_line_report_lines. intros x.
        apply Forall_app. split; apply cond_warning_line. }
    pose proof (file_report_warnings ua f lines) as Hw.
    rewrite Forall_forall in *. intros y Hy.
    destruct (H y Hy) as [Hf Hl]. repeat split; auto; lia.
Qed.

Lemma issues_point_into_the_file_witness :
  exists found,
    issues (self (snd (check_file ascii_only two_files_read (lit "b.swift")
                                  start)))
    = issues (self start) ++ map render_issue found
    /\ Forall (fun y => is_warning y /\ issue_file y = lit "b.swift"
                        /\ 1 <= issue_line y <= 2)
              found.
Proof.
  exact (@issues_point_into_the_file ascii_only two_files_read
           (lit "b.swift") [lit "// TODO later"; long_line] start eq_refl).
Defined.

(** X8.  The console output of such a run is: the count of files found
    (or the notice that none was found); for each file in the order of
    [glob], either the line announcing it followed by its issues or the
    line reporting that it could not be read; and last the summary, which
    tells that there are no issues or gives the number of issues as the
    number of warnings, with zero errors. *)
Theorem run_console_output ua argv isdir glob rd directory :
  nth_error argv 1 = Some directory ->
  isdir directory = true ->
  uninterrupted rd (glob (path_join directory (lit "**/*.swift"))) ->
  stdout (snd (run_process ua argv isdir glob rd))
  = run_output ua rd directory
               (glob (path_join directory (lit "**/*.swift"))).
Proof.
  intros Hd Hi Hok.
  pose proof (@run_normal ua argv isdir glob rd directory Hd Hi Hok) as H.
  cbv zeta in H. rewrite H. reflexivity.
Qed.

Lemma run_console_output_witness :
  stdout (snd (run_process ascii_only demo_argv demo_isdir two_files_glob
                           two_files_read))
  = [lit "Found 2 Swift files to check";
     lit "Error checking a.swift: Permission denied";
     lit "Linting b.swift";
     lit "b.swift:2: warning: Line should be 120 characters or less: currently 121 characters (line_length)";
     lit "b.swift:1: warning: TODO comments should include context: // TODO: Description (todo_format)";
     10%N :: 128202%N :: lit " Summary: 2 warnings, 0 errors"].
Proof.
  rewrite (@run_console_output ascii_only demo_argv demo_isdir two_files_glob
             two_files_read (lit "src") eq_refl eq_refl
             two_files_uninterrupted).
  lazy. reflexivity.
Defined.

End Runs.

(* ===================================================================== *)
(** * The rules that look at one line at a time: edge behaviour           *)
(* ===================================================================== *)

Module LineRules.
Import Py Re Checker Samples Reports Worlds PyFacts ReFacts CheckerFacts.
Local Open Scope py_scope.

(** ** Stripping *)

Lemma lstrip_app_spaces a b :
  forallb isspace a = true -> lstrip (a ++ b) = lstrip b.
Proof.
  induction a as [|c a IH]; intros H; cbn [app lstrip forallb] in *.
  - reflexivity.
  - apply andb_true_iff in H as [Hc Ha]. rewrite Hc. auto.
Qed.

Lemma lstrip_length s : (length (lstrip s) <= length s)%nat.
Proof.
  induction s as [|c s IH]; cbn [lstrip length]; [lia|].
  destruct (isspace c); cbn [length]; lia.
Qed.

Lemma lstrip_snoc_nonspace a c :
  isspace c = false -> lstrip (a ++ [c]) = lstrip a ++ [c].
Proof.
  intros Hc. induction a as [|x a IH]; cbn [app lstrip].
  - rewrite Hc. reflexivity.
  - destruct (isspace x); [exact IH | reflexivity].
Qed.

Lemma forallb_rev {A} (f : A -> bool) l :
  forallb f l = true -> forallb f (rev l) = true.
Proof.
  rewrite !forallb_forall. intros H x Hx. apply H, in_rev, Hx.
Qed.

Lemma rstrip_app_spaces s ws :
  forallb isspace ws = true -> rstrip (s ++ ws) = rstrip s.
Proof.
  intros H. unfold rstrip. rewrite rev_app_distr, lstrip_app_spaces; auto.
  apply forallb_rev, H.
Qed.

Lemma rstrip_length s : len (rstrip s) <= len s.
Proof.
  unfold len, rstrip. rewrite length_rev.
  pose proof (lstrip_length (rev s)) as H. rewrite length_rev in H. lia.
Qed.

Lemma rstrip_cons_nonspace c s :
  isspace c = false -> rstrip (c :: s) = c :: rstrip s.
Proof.
  intros Hc. unfold rstrip. cbn [rev].
  rewrite lstrip_snoc_nonspace by exact Hc.
  rewrite rev_app_distr. reflexivity.
Qed.

(** ** Line length *)

Lemma line_length_report_short fp lines : forall k,
  Forall (fun l => len (rstrip l) <= 120) lines ->
  flat_map (fun x =>
    if 120 <? len (rstrip (snd x))
    then [warning fp (fst x) "line_length"
            (line_length_msg (len (rstrip (snd x))))]
    else []) (enumerate lines k) = [].
Proof.
  induction lines as [|l lines IH]; intros k H; cbn [enumerate flat_map].
  - reflexivity.
  - inversion H as [|? ? Hl Hr]; subst. cbn [fst snd].
    replace (120 <? len (rstrip l)) with false
      by (symmetry; apply Z.ltb_ge; exact Hl).
    apply IH, Hr.
Qed.

Lemma check_line_length_as_report fp lines st :
  check_line_length fp lines st
  = log_all (flat_map (fun x =>
       if 120 <? len (rstrip (snd x))
       then [warning fp (fst x) "line_length"
               (line_length_msg (len (rstrip (snd x))))]
       else []) (enumerate lines 1)) st.
Proof. exact (check_line_length_log fp lines st). Qed.

(** X9.  A file none of whose lines has more than 120 characters once its
    trailing whitespace is removed gets no line-length issue. *)
Theorem short_lines_are_not_flagged fp lines st :
  Forall (fun l => len (rstrip l) <= 120) lines ->
  check_line_length fp lines st = (Val tt, st).
Proof.
  intros H. rewrite check_line_length_as_report.
  rewrite (@line_length_report_short fp lines 1 H). reflexivity.
Qed.

Lemma short_lines_are_not_flagged_witness :
  check_line_length (lit "a.swift")
    [lit "import Foundation"; repeat (chr "x") 120] start
  = (Val tt, start).
Proof.
  apply short_lines_are_not_flagged.
  constructor; [vm_compute; discriminate|].
  constructor; [vm_compute; discriminate|]. constructor.
Defined.

(** X10.  A line of more than 120 characters, trailing whitespace apart,
    among lines that are not, gets exactly one warning, on its own line
    number, whose message gives the length counted without the trailing
    whitespace. *)
Theorem long_line_is_reported fp pre line post st :
  Forall (fun l => len (rstrip l) <= 120) pre ->
  120 < len (rstrip line) ->
  Forall (fun l => len (rstrip l) <= 120) post ->
  check_line_length fp (pre ++ line :: post) st
  = log (warning fp (Z.of_nat (length pre) + 1) "line_length"
           (lit "Line should be 120 characters or less: currently "
            ++ str_of_int (len (rstrip line)) ++ lit " characters")) st.
Proof.
  intros Hpre Hline Hpost. rewrite check_line_length_as_report.
  rewrite enumerate_app, flat_map_app.
  rewrite (@line_length_report_short fp pre 1 Hpre).
  cbn [enumerate flat_map fst snd app].
  rewrite (@line_length_report_short fp post _ Hpost).
  replace (120 <? len (rstrip line)) with true
    by (symmetry; apply Z.ltb_lt; exact Hline).
  rewrite app_nil_r, log_all_one.
  replace (1 + Z.of_nat (length pre)) with (Z.of_nat (length pre) + 1) by lia.
  reflexivity.
Qed.

Lemma long_line_is_reported_witness :
  check_line_length (lit "a.swift")
    [lit "import Foundation"; long_line ++ lit "   "; lit "}"] start
  = log (warning (lit "a.swift") 2 "line_length"
           (lit "Line should be 120 characters or less: currently 121 characters"))
        start.
Proof.
  refine (@long_line_is_reported (lit "a.swift") [lit "import Foundation"]
            (long_line ++ lit "   ") [lit "}"] start _ _ _).
  - constructor; [vm_compute; discriminate | constructor].
  - vm_compute. reflexivity.
  - constructor; [vm_compute; discriminate | constructor].
Defined.

(** X11.  Whitespace at the end of a line, the line terminator included,
    does not count towards its length: a text of at most 120 characters
    followed by any whitespace is not flagged, and a longer one is
    reported exactly as without the whitespace. *)
Theorem trailing_whitespace_is_not_counted fp i s ws st :
  forallb isspace ws = true ->
  line_length_body fp (i, s ++ ws) st = line_length_body fp (i, s) st
  /\ (len s <= 120 -> line_length_body fp (i, s ++ ws) st = (Val tt, st)).
Proof.
  intros Hws.
  assert (E : line_length_body fp (i, s ++ ws) st
              = line_length_body fp (i, s) st).
  { unfold line_length_body. rewrite (@rstrip_app_spaces s ws Hws). reflexivity. }
  split; [exact E|].
  intros Hlen. rewrite E. unfold line_length_body.
  pose proof (rstrip_length s).
  replace (120 <? len (rstrip s)) with false
    by (symmetry; apply Z.ltb_ge; lia).
  reflexivity.
Qed.

Lemma trailing_whitespace_is_not_counted_witness :
  line_length_body (lit "a.swift")
    (1, repeat (chr "x") 120 ++ [32; 9; 13; 10]%N) start
  = (Val tt, start).
Proof.
  refine (proj2 (@trailing_whitespace_is_not_counted (lit "a.swift") 1
                   (repeat (chr "x") 120) [32; 9; 13; 10]%N start eq_refl) _).
  vm_compute. discriminate.
Defined.

(** ** [try!] *)

Lemma strip_comment_line ws rest :
  forallb isspace ws = true ->
  startswith (lit "//") (strip (ws ++ lit "//" ++ rest)) = true.
Proof.
  intros H. unfold strip. rewrite (@lstrip_app_spaces ws _ H).
  change (lit "//" ++ rest) with (chr "/" :: chr "/" :: rest).
  cbn [lstrip]. change (isspace (chr "/")) with false. cbv iota.
  rewrite !rstrip_cons_nonspace by reflexivity. reflexivity.
Qed.

(** X12.  A line whose first characters after its indentation are the
    comment-start token gets no [try_force] issue, whatever the comment
    holds. *)
Theorem comment_line_has_no_try_force fp i ws rest st :
  forallb isspace ws = true ->
  try_force_body fp (i, ws ++ lit "//" ++ rest) st = (Val tt, st).
Proof.
  intros H. unfold try_force_body.
  rewrite (@strip_comment_line ws rest H). rewrite andb_false_r. reflexivity.
Qed.

Lemma comment_line_has_no_try_force_witness :
  try_force_body (lit "a.swift") (3, lit "    // let v = try! load()") start
  = (Val tt, start).
Proof.
  exact (@comment_line_has_no_try_force (lit "a.swift") 3 (lit "    ")
           (lit " let v = try! load()") start eq_refl).
Defined.

(** ** Forced unwrapping *)

(** X13.  A '!' that stands only in a trailing comment is never flagged:
    when the text before a comment-start token holds no '!', the line
    gets no [force_unwrapping] issue, whatever follows the token. *)
Theorem bang_in_comment_is_not_flagged ua fp i code comment st :
  (forall c, In c code -> c <> chr "!") ->
  force_unwrapping_body ua fp (i, code ++ lit "//" ++ comment) st
  = (Val tt, st).
Proof.
  intros Hno.
  destruct (ForceUnwrap.code_part_spec (code ++ lit "//" ++ comment))
    as [_ Hcp].
  assert (Hc : contains (lit "//") (code ++ lit "//" ++ comment) = true).
  { apply contains_iff. eauto. }
  destruct (Hcp Hc) as (rest & Hline & Hfirst).
  set (cp := code_part (code ++ lit "//" ++ comment)) in *.
  assert (Hprefix : exists b, code = cp ++ b).
  { apply app_eq_app in Hline as (l & [[E1 E2] | [E1 E2]]).
    - eauto.
    - destruct l as [|x l]; [exists []; rewrite app_nil_r in E1 |- *; auto|].
      exfalso. specialize (Hfirst code (x :: l) E1 ltac:(discriminate)).
      rewrite <- E2 in Hfirst.
      assert (startswith (lit "//") (lit "//" ++ comment) = true)
        by (apply startswith_iff; eauto).
      congruence. }
  destruct Hprefix as (b & Hb).
  rewrite force_unwrapping_body_log. cbn [fst snd]. fold cp.
  destruct (re_search ua force_unwrap_re cp) eqn:Hs; [|reflexivity].
  exfalso. apply ForceUnwrap.force_unwrap_search in Hs
    as (p & x & y & q & E & _).
  apply (Hno (chr "!")); [|reflexivity].
  rewrite Hb, E. apply in_or_app. left. apply in_or_app. right.
  right. left. reflexivity.
Qed.

Lemma bang_in_comment_is_not_flagged_witness :
  force_unwrapping_body ascii_only (lit "a.swift")
                        (5, lit "let n = count // never nil!?") start
  = (Val tt, start).
Proof.
  refine (@bang_in_comment_is_not_flagged ascii_only (lit "a.swift") 5
            (lit "let n = count ") (lit " never nil!?") start _).
  intros c Hc.
  repeat (destruct Hc as [<- | Hc]; [discriminate|]). destruct Hc.
Defined.

End LineRules.

(* ===================================================================== *)
(** * The function-body-length rule: what it misses                       *)
(* ===================================================================== *)

Module SpanEdges.
Import Py Re Checker Samples Reports Worlds PyFacts ReFacts CheckerFacts.
Local Open Scope py_scope.

(** X14.  A file in which no line both has the shape of a function
    declaration and holds an opening brace gets no function-length issue:
    a function whose opening brace stands on the line after its
    declaration is never measured, however long it is. *)
Theorem no_opening_line_no_issue ua fp lines st :
  Forall (fun l => opens_span ua l = false) lines ->
  check_function_length ua fp lines st = (Val tt, st).
Proof.
  intros H. rewrite check_function_length_log.
  rewrite (@FunctionLength.fl_outside_quiet ua fp lines 1 fl_init eq_refl H).
  reflexivity.
Qed.

Lemma no_opening_line_no_issue_witness :
  check_function_length ascii_only (lit "a.swift") brace_on_next_line start
  = (Val tt, start).
Proof.
  apply no_opening_line_no_issue.
  apply FunctionLength.Forall_false_by_eval. vm_compute. reflexivity.
Defined.

(** X15.  A file of at most sixty lines gets no function-length issue,
    whatever it holds. *)
Theorem short_file_no_issue ua fp lines st :
  (length lines <= 60)%nat ->
  check_function_length ua fp lines st = (Val tt, st).
Proof.
  intros H. rewrite check_function_length_log.
  rewrite (@FunctionLength.fl_early_quiet ua fp lines 1 fl_init);
    [reflexivity | lia | lia | discriminate].
Qed.

Lemma short_file_no_issue_witness :
  check_function_length ascii_only (lit "a.swift")
    (lit "func f() {" :: repeat (lit "    total += 1") 58 ++ [lit "}"]) start
  = (Val tt, start).
Proof.
  apply short_file_no_issue. apply Nat.leb_le. reflexivity.
Defined.

(** X16.  A function that is opened and not closed before the end of the
    file is never reported: when the last opening line is followed only by
    lines that are no declarations and keep the depth positive, the rule
    logs exactly what it logs for the lines before that opening line. *)
Theorem unclosed_function_is_not_reported ua fp pre decl body st :
  opens_span ua decl = true ->
  Forall (fun l => is_func_decl ua l = false) body ->
  (forall j, (1 <= j <= length body)%nat ->
             0 < depth_after decl (firstn j body)) ->
  check_function_length ua fp (pre ++ decl :: body) st
  = check_function_length ua fp pre st.
Proof.
  intros Hopen Hbody Hpos. rewrite !check_function_length_log.
  rewrite enumerate_app, FunctionLength.fl_reports_app.
  cbn [enumerate fl_reports].
  destruct (@FunctionLength.fl_opens ua fp
              (fl_locals_after ua (enumerate pre 1) fl_init)
              (1 + Z.of_nat (length pre)) decl Hopen) as [Hn Hr].
  rewrite Hn, Hr.
  destruct (@FunctionLength.fl_inside ua fp body
              (1 + Z.of_nat (length pre) + 1) (1 + Z.of_nat (length pre))
              (brace_delta decl) Hbody Hpos) as [Hr2 _].
  rewrite Hr2, !app_nil_r. reflexivity.
Qed.

Lemma unclosed_function_is_not_reported_witness :
  check_function_length ascii_only (lit "a.swift") unclosed_function start
  = (Val tt, start).
Proof.
  refine (@unclosed_function_is_not_reported ascii_only (lit "a.swift") []
            (lit "func f() {") (repeat (lit "    total += 1") 79) start
            eq_refl _ _).
  - apply FunctionLength.Forall_false_by_eval. vm_compute. reflexivity.
  - apply FunctionLength.depth_positive_by_eval. vm_compute. reflexivity.
Defined.

(** ** Which lines have the shape of a declaration *)

Lemma lstrip_head s c t : lstrip s = c :: t -> isspace c = false.
Proof.
  induction s as [|x s IH]; cbn [lstrip]; [discriminate|].
  destruct (isspace x) eqn:Hx; [exact IH|].
  intros E. injection E as <- _. exact Hx.
Qed.

Lemma strip_head line c t : strip line = c :: t -> isspace c = false.
Proof.
  unfold strip. destruct (lstrip line) as [|d u] eqn:E.
  - discriminate.
  - pose proof (@lstrip_head line d u E) as Hd.
    rewrite (@LineRules.rstrip_cons_nonspace d u Hd).
    intros E'. injection E' as <- _. exact Hd.
Qed.

Section Shape.
Variable ua : char -> bool.

Local Abbreviation modifier_re :=
  (Alt (Cat (Lit "private") (Plus Space))
       (Alt (Cat (Lit "public") (Plus Space))
            (Alt (Cat (Lit "internal") (Plus Space))
                 (Cat (Lit "fileprivate") (Plus Space))))).

Lemma modifier_matches p s p' s' :
  matches ua modifier_re p s p' s' <->
  exists kw sp ws,
    s = kw ++ sp :: ws ++ s' /\ is_modifier kw
    /\ isspace sp = true /\ forallb isspace ws = true
    /\ p' = prev_after (prev_after p kw) (sp :: ws).
Proof.
  unfold is_modifier. split.
  - intros H.
    repeat (apply matches_Alt_iff in H as [H | H]);
      apply matches_Cat_iff in H as (p1 & s1 & H1 & H2);
      apply matches_Lit_iff in H1 as [-> ->];
      apply matches_plus_cls_iff in H2 as (sp & ws & -> & Hsp & Hws & ->);
      eexists _, sp, ws; (split; [reflexivity|]); auto 10.
  - intros (kw & sp & ws & -> & Hkw & Hsp & Hws & ->).
    assert (Hm : forall w, matches ua (Cat (Lit w) (Plus Space)) p
                             (lit w ++ sp :: ws ++ s')
                             (prev_after (prev_after p (lit w)) (sp :: ws))
                             s').
    { intros w. apply matches_Cat_iff. eexists _, _. split.
      - apply matches_Lit_iff. split; reflexivity.
      - apply matches_plus_cls_iff. exists sp, ws. auto. }
    destruct Hkw as [-> | [-> | [-> | ->]]].
    + apply matches_Alt_iff. left. apply Hm.
    + apply matches_Alt_iff. right. apply matches_Alt_iff. left. apply Hm.
    + apply matches_Alt_iff. right. apply matches_Alt_iff. right.
      apply matches_Alt_iff. left. apply Hm.
    + apply matches_Alt_iff. right. apply matches_Alt_iff. right.
      apply matches_Alt_iff. right. apply Hm.
Qed.

Lemma star_modifiers p s p' s' :
  matches ua (Star modifier_re) p s p' s' ->
  exists m, s = m ++ s' /\ modifiers m.
Proof.
  remember (Star modifier_re) as r eqn:Hr. intros H.
  induction H; try discriminate.
  - exists []. split; [reflexivity | constructor].
  - injection Hr as ->.
    apply modifier_matches in H as (kw & sp & ws & -> & Hkw & Hsp & Hws & _).
    destruct (IHmatches2 eq_refl) as (m & -> & Hm).
    exists (kw ++ sp :: ws ++ m). split.
    + rewrite <- !app_assoc. cbn [app]. rewrite <- app_assoc. reflexivity.
    + constructor; assumption.
Qed.

Lemma modifiers_star m :
  modifiers m ->
  forall p tail, exists p', matches ua (Star modifier_re) p (m ++ tail) p' tail.
Proof.
  induction 1 as [|kw sp ws rest Hkw Hsp Hws Hm IH]; intros p tail.
  - exists p. constructor.
  - destruct (IH (prev_after (prev_after p kw) (sp :: ws)) tail) as (p' & Hp').
    exists p'. eapply M_StarS; [| |exact Hp'].
    + apply modifier_matches. exists kw, sp, ws. repeat split; auto.
      rewrite <- !app_assoc. cbn [app]. rewrite <- app_assoc. reflexivity.
    + rewrite !length_app. cbn [length]. rewrite !length_app. lia.
Qed.

(** X17.  A line has the shape of a function declaration exactly when,
    leading and trailing whitespace apart, it is made of any number of the
    modifiers [private], [public], [internal], [fileprivate], each
    followed by whitespace, then [func] and a whitespace character; what
    follows is free.  So [func] must be followed by whitespace on the
    line, and a declaration that begins with any other word, such as
    [static] or [override], is not seen. *)
Theorem declaration_lines (line : str) :
  is_func_decl ua line = true <-> declaration_shape (strip line).
Proof.
  unfold is_func_decl, re_match, func_re, declaration_shape.
  rewrite run_spec. split.
  - intros (p' & s' & H & _).
    apply matches_Cat_iff in H as (p1 & s1 & H1 & H).
    apply matches_star_cls_iff in H1 as (w & Hw & Hsp & ->).
    assert (w = []) as ->.
    { destruct w as [|c w]; [reflexivity|]. cbn [app] in Hw.
      apply strip_head in Hw. cbn [forallb] in Hsp.
      apply andb_true_iff in Hsp as [Hc _]. congruence. }
    cbn [app] in Hw. rewrite Hw.
    apply matches_Cat_iff in H as (p2 & s2 & H2 & H).
    apply star_modifiers in H2 as (m & -> & Hm).
    apply matches_Cat_iff in H as (p3 & s3 & H3 & H4).
    apply matches_Lit_iff in H3 as [-> _].
    apply matches_plus_cls_iff in H4 as (sp & ws & -> & Hs & _).
    exists m, sp, (ws ++ s'). auto.
  - intros (m & sp & rest & -> & Hm & Hsp).
    destruct (@modifiers_star m Hm None (lit "func" ++ sp :: rest))
      as (p1 & H1).
    eexists _, rest. split; [|reflexivity].
    apply matches_Cat_iff. exists None, (m ++ lit "func" ++ sp :: rest).
    split; [constructor|].
    apply matches_Cat_iff. eexists _, _. split; [exact H1|].
    apply matches_Cat_iff. eexists _, _. split.
    + apply matches_Lit_iff. split; reflexivity.
    + apply matches_plus_cls_iff. exists sp, []. auto.
Qed.

End Shape.

Lemma declaration_lines_witness :
  declaration_shape (strip (lit "    public func area() -> Int {"))
  /\ is_func_decl ascii_only (lit "  static func make() {") = false.
Proof.
  split.
  - exact (proj1 (declaration_lines ascii_only
                    (lit "    public func area() -> Int {")) eq_refl).
  - reflexivity.
Defined.

End SpanEdges.
